(** * fin.py: walk-forward backtester and multi-period optimiser

    Shallow embedding of [PortfolioBacktester], [MultiPeriodOptimizer] and
    [TorchPortfolioOptimizer] of [src/AdvancedConnectionCanvas/fin.py].

    Conventions of the embedding.
    - A float is an exact rational [Q]; rounding, [nan] and [inf] are not
      represented.  Where the Python code would divide by zero inside a
      tensor operation (yielding [nan]/[inf]) the model yields [0]; a
      theorem below that states the value of such a quotient carries the
      hypothesis that excludes the zero divisor, and the closed examples
      divide by nothing that is zero, except where the quotient is computed
      and never read.
    - A 1-D tensor is a [list Q], a 2-D tensor a list of rows.  The column
      count [N] of a 2-D tensor is passed next to it (it is what
      [tensor.shape] gives when the tensor has no row).
    - Elementwise operations are applied to tensors of one shape; they are
      modelled by zipping.  On two tensors of different sizes torch raises
      RuntimeError where the zip truncates: a theorem that such an input
      would contradict carries the hypothesis that the sizes agree, or is
      stated of a result that is returned.
    - The rational model is what the formulas of the code compute; what
      the interpreter returns differs from it by rounding.  Where a claim
      depends on the rounding, or on [nan], the lines concerned are
      evaluated again in IEEE 754 arithmetic
      ([compute_transaction_costs_ieee]).
    - Python exceptions are values of [exn]; a function that can raise
      returns a [result].
    - [torch.optim] and [sqrt] are external: they are variables of the
      section that holds the code depending on them. *)

From Stdlib Require Import QArith Qabs Qminmax Lqa ZArith List String Bool Lia.
From Stdlib Require Import SpecFloat.
Import ListNotations.
Local Open Scope Q_scope.

(** ** Exceptions *)

Inductive exn : Set :=
| ZeroDivisionError
| IndexError
| RuntimeError.

Inductive result (A : Type) : Type :=
| Ok (a : A)
| Raise (e : exn).

Arguments Ok {A} a.
Arguments Raise {A} e.

Definition bind {A B : Type} (r : result A) (k : A -> result B) : result B :=
  match r with
  | Ok a => k a
  | Raise e => Raise e
  end.

Notation "x <- r ;; k" := (bind r (fun x => k))
  (at level 61, r at next level, right associativity).

(** The call returned normally with a value satisfying [P]. *)
Definition returns_with {A : Type} (P : A -> Prop) (r : result A) : Prop :=
  match r with
  | Ok a => P a
  | Raise _ => False
  end.

(** ** Tensors *)

Fixpoint map2 {A B C : Type} (f : A -> B -> C) (u : list A) (v : list B)
  : list C :=
  match u, v with
  | a :: u', b :: v' => f a b :: map2 f u' v'
  | _, _ => []
  end.

(** [torch.sum] *)
Definition vsum (v : list Q) : Q := fold_right Qplus 0 v.

(** [u - v], [u * v], [torch.abs u], [u * k] and [u / k] for a scalar [k] *)
Definition vsub (u v : list Q) : list Q := map2 Qminus u v.
Definition vmul (u v : list Q) : list Q := map2 Qmult u v.
Definition vabs (u : list Q) : list Q := map Qabs u.
Definition vscale (u : list Q) (k : Q) : list Q := map (fun x => x * k) u.
Definition vdiv (u : list Q) (k : Q) : list Q := map (fun x => x / k) u.

(** Column [j] of a 2-D tensor *)
Definition column (j : nat) (X : list (list Q)) : list Q :=
  map (fun row => nth j row 0) X.

(** [u @ v] for 1-D tensors; [m @ v] and [v @ m] for a square [m] of the
    size of [v]; [w @ m @ w], which Python reads as [(w @ m) @ w] *)
Definition dot (u v : list Q) : Q := vsum (vmul u v).
Definition matvec (m : list (list Q)) (v : list Q) : list Q :=
  map (fun row => dot row v) m.
Definition vecmat (v : list Q) (m : list (list Q)) : list Q :=
  map (fun j => dot v (column j m)) (seq 0 (List.length v)).
Definition quadform (w : list Q) (m : list (list Q)) : Q := dot (vecmat w m) w.

(** [torch.zeros(n)], [torch.zeros(r, n)], [torch.ones(n)] *)
Definition zeros (n : nat) : list Q := repeat 0 n.
Definition zeros2 (r n : nat) : list (list Q) := repeat (zeros n) r.
Definition ones (n : nat) : list Q := repeat 1 n.

(** [x > y] on floats *)
Definition Qgtb (x y : Q) : bool := negb (Qle_bool x y).

(** [torch.max] and [torch.min] of a 1-D tensor; both raise on an empty
    tensor. *)
Definition vmax (v : list Q) : result Q :=
  match v with
  | [] => Raise RuntimeError
  | x :: r => Ok (fold_left Qmax r x)
  end.

Definition vmin (v : list Q) : result Q :=
  match v with
  | [] => Raise RuntimeError
  | x :: r => Ok (fold_left Qmin r x)
  end.

(** [t[i] = x] for an index in range *)
Fixpoint set_at {A : Type} (i : nat) (x : A) (l : list A) : list A :=
  match l, i with
  | [], _ => []
  | _ :: r, O => x :: r
  | a :: r, S j => a :: set_at j x r
  end.

(** ** Enumerations *)

Inductive RebalanceFrequency : Set :=
| DAILY | WEEKLY | MONTHLY | QUARTERLY | ANNUALLY | THRESHOLD.

Inductive TransactionCostModel : Set :=
| PROPORTIONAL | FIXED_PLUS_PROPORTIONAL | MARKET_IMPACT | NONE.

(** ** Rebalance policy: [PortfolioBacktester.should_rebalance] *)

Definition should_rebalance (current_weights target_weights : list Q)
    (rebalance_freq : RebalanceFrequency) (current_idx last_rebalance_idx : Z)
    (threshold : Q) : result bool :=
  match rebalance_freq with
  | DAILY => Ok true
  | WEEKLY => Ok (5 <=? current_idx - last_rebalance_idx)%Z
  | MONTHLY => Ok (21 <=? current_idx - last_rebalance_idx)%Z
  | QUARTERLY => Ok (63 <=? current_idx - last_rebalance_idx)%Z
  | ANNUALLY => Ok (252 <=? current_idx - last_rebalance_idx)%Z
  | THRESHOLD =>
      weight_drift <- vmax (vabs (vsub current_weights target_weights)) ;;
      Ok (Qgtb weight_drift threshold)
  end.

(** ** Projection used by every optimiser

    [weights.clamp_(min=bounds[0], max=bounds[1]); weights.div_(weights.sum())]

    When the clamped entries add up to zero the division gives [nan] in
    torch and 0 here: a theorem on the value of projected weights carries
    the hypothesis that this sum is not zero. *)

Definition clamp (lo hi x : Q) : Q := Qmin (Qmax x lo) hi.

Definition clamp_ (bounds : Q * Q) (w : list Q) : list Q :=
  map (clamp (fst bounds) (snd bounds)) w.

Definition project (bounds : Q * Q) (w : list Q) : list Q :=
  let c := clamp_ bounds w in vdiv c (vsum c).

(** ** Sample moments

    [mean(dim=0)] and [(centered.T @ centered) / (T - 1)], as written at the
    head of [_optimize_weights] and in the constructors of
    [MultiPeriodOptimizer] and [TorchPortfolioOptimizer]. *)

Definition mean_dim0 (N : nat) (X : list (list Q)) : list Q :=
  map (fun j => vsum (column j X) / inject_Z (Z.of_nat (List.length X)))
      (seq 0 N).

Definition sample_cov (N : nat) (X : list (list Q)) : list (list Q) :=
  let mean_returns := mean_dim0 N X in
  let centered := map (fun row => vsub row mean_returns) X in
  map (fun i =>
         map (fun j =>
                dot (column i centered) (column j centered)
                / inject_Z (Z.of_nat (List.length X) - 1))
             (seq 0 N))
      (seq 0 N).

(** Python float division [x / y]: raises on a zero divisor. *)
Definition py_div (x y : Q) : result Q :=
  if Qeq_bool y 0 then Raise ZeroDivisionError else Ok (x / y).

(** [range(a, b)] *)
Definition range (a b : nat) : list nat := seq a (b - a).

(** [for t in ts: s = body(t, s)], stopping at the first exception *)
Fixpoint for_each {S : Type} (ts : list nat) (body : nat -> S -> result S)
    (s : S) : result S :=
  match ts with
  | [] => Ok s
  | t :: ts' => s' <- body t s ;; for_each ts' body s'
  end.

(** [f] applied [n] times *)
Fixpoint iterate {A : Type} (n : nat) (f : A -> A) (a : A) : A :=
  match n with
  | O => a
  | S k => iterate k f (f a)
  end.

(** ** Maximum drawdown: a block of [_compute_performance_metrics]

    [cummax = torch.cummax(portfolio_values, dim=0)[0]]
    [drawdown = (portfolio_values - cummax) / cummax]
    [max_drawdown = torch.min(drawdown).item()] *)

Fixpoint cummax_from (m : Q) (v : list Q) : list Q :=
  match v with
  | [] => []
  | x :: r => let m' := Qmax m x in m' :: cummax_from m' r
  end.

Definition cummax (v : list Q) : list Q :=
  match v with
  | [] => []
  | x :: r => x :: cummax_from x r
  end.

Definition drawdown (portfolio_values : list Q) : list Q :=
  map2 Qdiv (vsub portfolio_values (cummax portfolio_values))
       (cummax portfolio_values).

Definition max_drawdown_of (portfolio_values : list Q) : result Q :=
  vmin (drawdown portfolio_values).

(** ** Performance metrics: [_compute_performance_metrics]

    The entries that go through float power, [torch.std] and [np.sqrt]
    (annualized return and volatility, Sharpe, Sortino and Calmar ratios)
    are left out of the record; the others are computed as in the source,
    in the source's order.  The power of fin.py:494 raises OverflowError
    when its result exceeds the float range, before the profit factor is
    reached: the model returns in such a case, so that it returns more
    often than the code.  What is proved of returned metrics holds of the
    code's; that the code raises is stated only where the power is 0.0 or
    1.0 (no simulated period). *)

Record Metrics : Type := mkMetrics {
  total_return : Q;
  max_drawdown : Q;
  win_rate : Q;
  avg_win : Q;
  avg_loss : Q;
  profit_factor : Q
}.

(** [t.mean()] of a non-empty 1-D tensor *)
Definition vmean (v : list Q) : Q :=
  vsum v / inject_Z (Z.of_nat (List.length v)).

Definition _compute_performance_metrics (initial_capital : Q)
    (portfolio_values portfolio_returns : list Q) : result Metrics :=
  match rev portfolio_values with
  | [] => Raise IndexError
  | v_last :: _ =>
      let total_return := (v_last - initial_capital) / initial_capital in
      max_drawdown <- max_drawdown_of portfolio_values ;;
      let positive_returns := map (fun r => Qgtb r 0) portfolio_returns in
      let win_rate :=
        vmean (map (fun b : bool => if b then 1 else 0) positive_returns) in
      let wins := filter (fun r => Qgtb r 0) portfolio_returns in
      let losses := filter (fun r => negb (Qgtb r 0)) portfolio_returns in
      let avg_win := if (0 <? List.length wins)%nat then vmean wins else 0 in
      let avg_loss :=
        if (0 <? List.length losses)%nat then vmean losses else 0 in
      let total_wins := if (0 <? List.length wins)%nat then vsum wins else 0 in
      let total_losses :=
        if (0 <? List.length losses)%nat then Qabs (vsum losses) else 1e-10 in
      profit_factor <- py_div total_wins total_losses ;;
      Ok (mkMetrics total_return max_drawdown win_rate avg_win avg_loss
                    profit_factor)
  end.

(** ** Code that calls [torch.optim] or [sqrt] *)

Section Torch.

(** [torch.sqrt] *)
Variable sqrtQ : Q -> Q.

(** [optim.LBFGS([weights], lr=0.1, max_iter=20)] driven by
    [for _ in range(n): optimizer.step(closure)].  The closure first
    projects [weights] in place, then evaluates the loss at the projected
    point.  Arguments: [n], the closure's projection, the closure's loss,
    the initial [weights]; result: [weights] when the loop ends. *)
Variable lbfgs : nat -> (list Q -> list Q) -> (list Q -> Q) -> list Q -> list Q.

(** The same with [line_search_fn='strong_wolfe'] and the early exit
    [if no_improve > 10: break] of [TorchPortfolioOptimizer]. *)
Variable lbfgs_wolfe :
  nat -> (list Q -> list Q) -> (list Q -> Q) -> list Q -> list Q.

(** [optim.Adam([weights], lr=0.01)] driven by [n] rounds of
    project, loss, [backward], [optimizer.step()]. *)
Variable adam : nat -> (list Q -> list Q) -> (list Q -> Q) -> list Q -> list Q.

(** *** Transaction cost model: [compute_transaction_costs]

    [sqrtQ] stands for the square root on numbers that are not negative;
    the trade amounts are negative only when [portfolio_value] is. *)

Definition compute_transaction_costs (old_weights new_weights : list Q)
    (portfolio_value : Q) (cost_model : TransactionCostModel)
    (cost_rate fixed_cost market_impact_coef : Q) : Q :=
  let trade_amounts :=
    vscale (vabs (vsub new_weights old_weights)) portfolio_value in
  match cost_model with
  | NONE => 0
  | PROPORTIONAL => vsum trade_amounts * cost_rate
  | FIXED_PLUS_PROPORTIONAL =>
      let n_trades :=
        List.length (filter (fun d => Qgtb d 1e-6)
                            (vabs (vsub new_weights old_weights))) in
      let proportional := vsum trade_amounts * cost_rate in
      let fixed := inject_Z (Z.of_nat n_trades) * fixed_cost in
      proportional + fixed
  | MARKET_IMPACT =>
      let proportional := vsum trade_amounts * cost_rate in
      let market_impact :=
        market_impact_coef * vsum (map sqrtQ trade_amounts) in
      proportional + market_impact
  end.

(** *** Losses of the single-window optimiser *)

Definition variance_loss (cov : list (list Q)) (weights : list Q) : Q :=
  quadform weights cov.

Definition sharpe_loss (mean_returns : list Q) (cov : list (list Q))
    (weights : list Q) : Q :=
  let excess_return := dot weights mean_returns in
  let portfolio_vol := sqrtQ (quadform weights cov + 1e-8) in
  let sharpe := excess_return / portfolio_vol in
  - sharpe.

Definition risk_parity_loss (N : nat) (cov : list (list Q))
    (weights : list Q) : Q :=
  let portfolio_var := quadform weights cov in
  let portfolio_vol := sqrtQ (portfolio_var + 1e-8) in
  let marginal := vdiv (matvec cov weights) (portfolio_vol + 1e-8) in
  let risk_contrib := vmul weights marginal in
  let target_rc := portfolio_vol / inject_Z (Z.of_nat N) in
  vsum (map (fun rc => (rc - target_rc) * (rc - target_rc)) risk_contrib).

(** *** [PortfolioBacktester._optimize_weights]

    [weights_before_projection] is the tensor [weights] when control
    reaches the last [with torch.no_grad()] block. *)

Definition weights_before_projection (N : nat)
    (historical_returns : list (list Q)) (method : string)
    (bounds : Q * Q) (weights : list Q) : list Q :=
  let mean_returns := mean_dim0 N historical_returns in
  let cov := sample_cov N historical_returns in
  if (method =? "minimum_variance")%string then
    lbfgs 50 (project bounds) (variance_loss cov) weights
  else if (method =? "maximum_sharpe")%string then
    adam 200 (project bounds) (sharpe_loss mean_returns cov) weights
  else if (method =? "risk_parity")%string then
    lbfgs 50 (project bounds) (risk_parity_loss N cov) weights
  else weights.

Definition _optimize_weights (N : nat) (historical_returns : list (list Q))
    (method : string) (bounds : Q * Q) : result (list Q) :=
  inv_N <- py_div 1 (inject_Z (Z.of_nat N)) ;;
  let weights := repeat inv_N N in
  Ok (project bounds
        (weights_before_projection N historical_returns method bounds
                                   weights)).

(** *** [TorchPortfolioOptimizer.optimize_minimum_variance_torch]

    [sample_cov] is the field computed by the constructor. *)

Definition optimize_minimum_variance_torch (N : nat)
    (returns : list (list Q)) (bounds : Q * Q) (max_iter : nat)
  : result (list Q) :=
  inv_N <- py_div 1 (inject_Z (Z.of_nat N)) ;;
  let weights := repeat inv_N N in
  Ok (project bounds
        (lbfgs_wolfe (max_iter / 20) (project bounds)
                     (variance_loss (sample_cov N returns)) weights)).

(** *** Walk-forward loop: [PortfolioBacktester.run_backtest]

    The object fields are [returns] (with [T] rows and [N] columns) and
    [initial_capital].  [dates] is a list of [T] labels: a rebalance date
    is recorded by its index.  (The constructor does not check the length
    of [dates]; with fewer than [T] labels [self.dates[t]] raises
    IndexError at a rebalance, which the model leaves out.  The theorems
    on the loop are stated of a state or report that is returned, or of a
    run that never rebalances.) *)

Record LoopState : Type := mkLoopState {
  portfolio_values : list Q;
  portfolio_returns : list Q;
  weights_history : list (list Q);
  transaction_costs : list Q;
  turnover : list Q;
  rebalance_dates : list nat;
  current_weights : list Q;
  portfolio_value : Q;
  last_rebalance_idx : nat
}.

Record BacktestResult : Type := mkBacktestResult {
  res_portfolio_values : list Q;
  res_portfolio_returns : list Q;
  res_weights_history : list (list Q);
  res_rebalance_dates : list nat;
  res_transaction_costs : list Q;
  res_turnover : list Q;
  res_metrics : Metrics
}.

Section RunBacktest.

Variable N : nat.
Variable returns : list (list Q).
Variable initial_capital : Q.

Variable optimization_method : string.
Variable lookback_window : nat.
Variable rebalance_freq : RebalanceFrequency.
Variable rebalance_threshold : Q.
Variable cost_model : TransactionCostModel.
Variable cost_rate : Q.
Variable min_history : nat.
Variable bounds : Q * Q.

(** The rolling window [self.returns[start_idx:t]] *)
Definition historical_window (t : nat) : list (list Q) :=
  let start_idx := Nat.max 0 (t - lookback_window) in
  firstn (t - start_idx) (skipn start_idx returns).

(** The test of the [if] that guards the rebalance block *)
Definition rebalance_test (t : nat) (s : LoopState) : result bool :=
  should_rebalance (current_weights s) (current_weights s) rebalance_freq
                   (Z.of_nat t) (Z.of_nat (last_rebalance_idx s))
                   rebalance_threshold.

(** The call [self.compute_transaction_costs(current_weights,
    target_weights, portfolio_value, cost_model, cost_rate)]: the two
    last parameters keep their defaults. *)
Definition rebalance_cost (s : LoopState) (target_weights : list Q) : Q :=
  compute_transaction_costs (current_weights s) target_weights
                            (portfolio_value s) cost_model cost_rate 0 0.

(** The rebalance block *)
Definition rebalance (t : nat) (s : LoopState) : result LoopState :=
  target_weights <-
    _optimize_weights N (historical_window t) optimization_method bounds ;;
  let tc := rebalance_cost s target_weights in
  Ok {| portfolio_values := portfolio_values s;
        portfolio_returns := portfolio_returns s;
        weights_history := weights_history s;
        transaction_costs := set_at t tc (transaction_costs s);
        turnover :=
          set_at t (vsum (vabs (vsub target_weights (current_weights s))))
                 (turnover s);
        rebalance_dates := rebalance_dates s ++ [t];
        current_weights := target_weights;
        portfolio_value := portfolio_value s - tc;
        last_rebalance_idx := t |}.

(** Return of the period, new value, drift of the weights *)
Definition realize (t : nat) (s : LoopState) : LoopState :=
  let returns_t := nth t returns [] in
  let portfolio_return := vsum (vmul (current_weights s) returns_t) in
  let value := portfolio_value s * (1 + portfolio_return) in
  let asset_values := vscale (current_weights s) value in
  let asset_values :=
    vmul asset_values (map (fun r => 1 + r) returns_t) in
  let drifted := vdiv asset_values (vsum asset_values) in
  {| portfolio_values := set_at t value (portfolio_values s);
     portfolio_returns := set_at t portfolio_return (portfolio_returns s);
     weights_history := set_at t drifted (weights_history s);
     transaction_costs := transaction_costs s;
     turnover := turnover s;
     rebalance_dates := rebalance_dates s;
     current_weights := drifted;
     portfolio_value := value;
     last_rebalance_idx := last_rebalance_idx s |}.

(** One turn of [for t in range(min_history, self.T)] *)
Definition backtest_step (t : nat) (s : LoopState) : result LoopState :=
  go <- rebalance_test t s ;;
  s1 <- (if go : bool then rebalance t s else Ok s) ;;
  Ok (realize t s1).

(** State when the loop is entered *)
Definition initial_state : result LoopState :=
  let T := List.length returns in
  let current_weights := vdiv (ones N) (inject_Z (Z.of_nat N)) in
  match T with
  | O => Raise IndexError
  | S _ =>
      Ok {| portfolio_values := set_at 0 initial_capital (zeros T);
            portfolio_returns := zeros T;
            weights_history := set_at 0 current_weights (zeros2 T N);
            transaction_costs := zeros T;
            turnover := zeros T;
            rebalance_dates := [];
            current_weights := current_weights;
            portfolio_value := initial_capital;
            last_rebalance_idx := min_history |}
  end.

(** State when the loop is left *)
Definition walk_forward : result LoopState :=
  s0 <- initial_state ;;
  for_each (range min_history (List.length returns)) backtest_step s0.

Definition run_backtest : result BacktestResult :=
  s <- walk_forward ;;
  metrics <- _compute_performance_metrics initial_capital
               (portfolio_values s) (portfolio_returns s) ;;
  Ok {| res_portfolio_values := portfolio_values s;
        res_portfolio_returns := portfolio_returns s;
        res_weights_history := weights_history s;
        res_rebalance_dates := rebalance_dates s;
        res_transaction_costs := transaction_costs s;
        res_turnover := turnover s;
        res_metrics := metrics |}.

(** The decision as the specification words it: the optimiser is run on
    the rolling window first, and the policy is evaluated against the
    candidate it returns. *)
Definition spec_rebalance_test (t : nat) (s : LoopState) : result bool :=
  target_weights <-
    _optimize_weights N (historical_window t) optimization_method bounds ;;
  should_rebalance (current_weights s) target_weights rebalance_freq
                   (Z.of_nat t) (Z.of_nat (last_rebalance_idx s))
                   rebalance_threshold.

End RunBacktest.

End Torch.

(** ** Multi-period optimiser: [MultiPeriodOptimizer] *)

Record MultiPeriodResult : Type := mkMultiPeriodResult {
  optimal_weights : list (list Q);
  expected_utility : Q;
  terminal_wealth : Q;
  total_transaction_costs : Q;
  average_period_return : Q;
  rebalancing_plan : list (nat * list Q)
}.

Section MultiPeriod.

(** [optim.LBFGS([weights], lr=0.1, max_iter=20)] driven by [n] calls of
    [optimizer.step(closure)]; see the section above. *)
Variable lbfgs : nat -> (list Q -> list Q) -> (list Q -> Q) -> list Q -> list Q.

(** Constructor arguments *)
Variable N : nat.
Variable returns : list (list Q).
Variable n_periods : nat.
Variable transaction_cost_rate : Q.
Variable risk_aversion : Q.

(** Fields estimated by the constructor *)
Definition mean_returns : list Q := mean_dim0 N returns.
Definition cov : list (list Q) := sample_cov N returns.

(** *** [_solve_single_period] *)

Definition single_period_loss (current_weights weights : list Q) : Q :=
  let turnover := vsum (vabs (vsub weights current_weights)) in
  let tc_cost := turnover * transaction_cost_rate in
  let expected_return := dot weights mean_returns in
  let variance := quadform weights cov in
  let utility :=
    expected_return - 0.5 * risk_aversion * variance - tc_cost in
  - utility.

Definition _solve_single_period (current_weights : list Q)
    (bounds : Q * Q) : list Q :=
  project bounds
    (lbfgs 50 (project bounds) (single_period_loss current_weights)
           current_weights).

(** *** [_solve_with_continuation] *)

Definition tc_cost (current_weights weights : list Q) : Q :=
  let turnover := vsum (vabs (vsub weights current_weights)) in
  turnover * transaction_cost_rate.

Definition immediate_utility (weights : list Q) : Q :=
  let expected_return := dot weights mean_returns in
  let variance := quadform weights cov in
  expected_return - 0.5 * risk_aversion * variance.

Definition total_value (current_weights weights : list Q) : Q :=
  let continuation := 0.95 * immediate_utility weights in
  immediate_utility weights - tc_cost current_weights weights + continuation.

Definition continuation_loss (current_weights weights : list Q) : Q :=
  - total_value current_weights weights.

Definition _solve_with_continuation
    (current_weights next_period_weights : list Q) (bounds : Q * Q)
  : list Q :=
  project bounds
    (lbfgs 50 (project bounds) (continuation_loss current_weights)
           current_weights).

(** *** [_simulate_forward] *)

Definition simulate_period (s : Q * list Q * Q) (target_w : list Q)
  : Q * list Q * Q :=
  let '(wealth, current_w, total_tc) := s in
  let tc := vsum (vabs (vsub target_w current_w)) * transaction_cost_rate in
  let period_return := dot target_w mean_returns in
  ((wealth - tc) * (1 + period_return), target_w, total_tc + tc).

Definition _simulate_forward (optimal_weights : list (list Q))
    (initial_weights : list Q) : result (Q * Q * Q * Q) :=
  let '(wealth, _, total_tc) :=
    fold_left simulate_period (firstn n_periods optimal_weights)
              (1, initial_weights, 0) in
  let utility := wealth - 0.5 * risk_aversion * (wealth * wealth) in
  avg <- py_div (wealth - 1) (inject_Z (Z.of_nat n_periods)) ;;
  Ok (utility, wealth, total_tc, avg).

(** *** [optimize_dynamic_program] *)

Section DynamicProgram.

Variable initial_weights : list Q.
Variable bounds : Q * Q.

(** First argument of the call of [_solve_with_continuation]:
    [initial_weights if t == 0 else optimal_weights[t - 1]] *)
Definition dp_reference (t : nat) (optimal_weights : list (list Q))
  : list Q :=
  if (t =? 0)%nat then initial_weights
  else nth (t - 1) optimal_weights [].

(** Body of [for t in range(self.n_periods - 1, -1, -1)] *)
Definition dp_step (optimal_weights : list (list Q)) (t : nat)
  : list (list Q) :=
  if (t =? n_periods - 1)%nat then
    set_at t (_solve_single_period initial_weights bounds) optimal_weights
  else
    set_at t
      (_solve_with_continuation (dp_reference t optimal_weights)
                                (nth (t + 1) optimal_weights []) bounds)
      optimal_weights.

(** The table [optimal_weights] when the turn of period [t] begins:
    the periods [n_periods - 1] down to [t + 1] have been solved. *)
Definition dp_table_before (t : nat) : list (list Q) :=
  fold_left dp_step (rev (seq (S t) (n_periods - S t)))
            (zeros2 n_periods N).

(** The table when the loop is left *)
Definition dp_table : list (list Q) :=
  fold_left dp_step (rev (seq 0 n_periods)) (zeros2 n_periods N).

Definition optimize_dynamic_program : result MultiPeriodResult :=
  let optimal_weights := dp_table in
  stats <- _simulate_forward optimal_weights initial_weights ;;
  let '(utility, wealth, total_tc, avg) := stats in
  Ok {| optimal_weights := optimal_weights;
        expected_utility := utility;
        terminal_wealth := wealth;
        total_transaction_costs := total_tc;
        average_period_return := avg;
        rebalancing_plan :=
          map (fun t => (t, nth t optimal_weights [])) (seq 0 n_periods) |}.

End DynamicProgram.

End MultiPeriod.

(** ** Definitions used to state the properties *)

(** [sum_index n f] is the sum of [f i] for [i < n]. *)
Definition sum_index (n : nat) (f : nat -> Q) : Q := vsum (map f (seq 0 n)).

(** [max_upto f t] is the maximum of [f s] for [s <= t]; [min_upto]
    likewise. *)
Fixpoint max_upto (f : nat -> Q) (t : nat) : Q :=
  match t with
  | O => f O
  | S k => Qmax (max_upto f k) (f (S k))
  end.

Fixpoint min_upto (f : nat -> Q) (t : nat) : Q :=
  match t with
  | O => f O
  | S k => Qmin (min_upto f k) (f (S k))
  end.

(** The proportional cost as the specification writes it:
    [rate * (sum over i of |new_i - old_i|) * V]. *)
Definition spec_proportional_cost (old new : list Q) (V rate : Q) : Q :=
  rate * sum_index (List.length old)
                   (fun i => Qabs (nth i new 0 - nth i old 0)) * V.

(** The drawdown metric as the specification writes it:
    [min over t of (V_t - running_max(V)_t) / running_max(V)_t]. *)
Definition spec_running_max (V : list Q) (t : nat) : Q :=
  max_upto (fun s => nth s V 0) t.

Definition spec_drawdown (V : list Q) (t : nat) : Q :=
  (nth t V 0 - spec_running_max V t) / spec_running_max V t.

Definition spec_max_drawdown (V : list Q) : Q :=
  min_upto (spec_drawdown V) (List.length V - 1).

(** The objective of an intermediate period as the specification writes it,
    for [N] assets, moments [mu] and [Sigma], risk aversion [lambda], cost
    rate [c] and reference weights [ref]. *)
Definition spec_immediate_utility (N : nat) (mu : list Q)
    (Sigma : list (list Q)) (lambda : Q) (w : list Q) : Q :=
  sum_index N (fun i => nth i w 0 * nth i mu 0)
  - 0.5 * lambda
    * sum_index N (fun i =>
        sum_index N (fun j => nth i w 0 * nth j (nth i Sigma []) 0 * nth j w 0)).

Definition spec_transaction_cost (N : nat) (c : Q) (ref w : list Q) : Q :=
  c * sum_index N (fun i => Qabs (nth i w 0 - nth i ref 0)).

Definition spec_value (N : nat) (mu : list Q) (Sigma : list (list Q))
    (lambda c : Q) (ref w : list Q) : Q :=
  spec_immediate_utility N mu Sigma lambda w
  - spec_transaction_cost N c ref w
  + 0.95 * spec_immediate_utility N mu Sigma lambda w.

(** The invariant of returned weight vectors as the specification writes it *)
Definition spec_weight_invariant (bounds : Q * Q) (w : list Q) : Prop :=
  Qabs (vsum w - 1) < 1e-6 /\
  Forall (fun x => fst bounds - 1e-9 <= x /\ x <= snd bounds + 1e-9) w.

(** Bounds for which the simplex is not empty *)
Definition valid_bounds (N : nat) (bounds : Q * Q) : Prop :=
  fst bounds <= snd bounds /\
  inject_Z (Z.of_nat N) * fst bounds <= 1 /\
  1 <= inject_Z (Z.of_nat N) * snd bounds.

(** ** Instances of the external functions for closed examples

    [stationary] is [torch.optim] at a point where the gradient of the loss
    is zero: each step evaluates the closure once, which projects [weights]
    in place, and leaves [weights] there.  [Qred] puts a rational in lowest
    terms; it does not change its value. *)
Definition stationary (n : nat) (closure_projection : list Q -> list Q)
    (loss : list Q -> Q) (weights : list Q) : list Q :=
  iterate n (fun w => map Qred (closure_projection w)) weights.

(** A square root rounded down to a multiple of the inverse of the
    denominator; no closed example below evaluates it. *)
Definition rounded_sqrt (x : Q) : Q :=
  inject_Z (Z.sqrt (Qnum x * QDen x)) / inject_Z (QDen x).

(** The weight vectors returned by the optimisation routines of the file
    for [N] assets and the box [bounds] *)
Inductive optimizer_returns (sqrtQ : Q -> Q)
    (lbfgs lbfgs_wolfe adam :
       nat -> (list Q -> list Q) -> (list Q -> Q) -> list Q -> list Q)
    (N : nat) (bounds : Q * Q) : list Q -> Prop :=
| ret_optimize_weights (X : list (list Q)) (method : string) (w : list Q) :
    _optimize_weights sqrtQ lbfgs adam N X method bounds = Ok w ->
    optimizer_returns sqrtQ lbfgs lbfgs_wolfe adam N bounds w
| ret_minimum_variance_torch (X : list (list Q)) (max_iter : nat)
    (w : list Q) :
    optimize_minimum_variance_torch lbfgs_wolfe N X bounds max_iter = Ok w ->
    optimizer_returns sqrtQ lbfgs lbfgs_wolfe adam N bounds w
| ret_single_period (X : list (list Q)) (c lambda : Q) (current : list Q) :
    List.length current = N ->
    optimizer_returns sqrtQ lbfgs lbfgs_wolfe adam N bounds
      (_solve_single_period lbfgs N X c lambda current bounds)
| ret_with_continuation (X : list (list Q)) (c lambda : Q)
    (current next : list Q) :
    List.length current = N ->
    optimizer_returns sqrtQ lbfgs lbfgs_wolfe adam N bounds
      (_solve_with_continuation lbfgs N X c lambda current next bounds).

(** ** The other optimisers of [TorchPortfolioOptimizer] *)

Section TorchOptimizers.

Variable sqrtQ : Q -> Q.
Variable lbfgs_wolfe :
  nat -> (list Q -> list Q) -> (list Q -> Q) -> list Q -> list Q.
Variable adam : nat -> (list Q -> list Q) -> (list Q -> Q) -> list Q -> list Q.

(** Fields of the object: [N], and the moments of [returns] *)
Variable N : nat.
Variable returns : list (list Q).

Definition excess_sharpe_loss (risk_free_rate : Q) (weights : list Q) : Q :=
  let excess_return := dot weights (mean_dim0 N returns) - risk_free_rate in
  let portfolio_vol :=
    sqrtQ (quadform weights (sample_cov N returns) + 1e-8) in
  let sharpe := excess_return / portfolio_vol in
  - sharpe.

(** [optimize_maximum_sharpe_torch]: [max_iter] rounds of Adam *)
Definition optimize_maximum_sharpe_torch (risk_free_rate : Q)
    (bounds : Q * Q) (max_iter : nat) : result (list Q) :=
  inv_N <- py_div 1 (inject_Z (Z.of_nat N)) ;;
  let weights := repeat inv_N N in
  Ok (project bounds
        (adam max_iter (project bounds) (excess_sharpe_loss risk_free_rate)
              weights)).

(** [optimize_risk_parity_torch]: the loss is the one of the backtester's
    ["risk_parity"] branch. *)
Definition optimize_risk_parity_torch (bounds : Q * Q) (max_iter : nat)
  : result (list Q) :=
  inv_N <- py_div 1 (inject_Z (Z.of_nat N)) ;;
  let weights := repeat inv_N N in
  Ok (project bounds
        (lbfgs_wolfe (max_iter / 20) (project bounds)
                     (risk_parity_loss sqrtQ N (sample_cov N returns))
                     weights)).

End TorchOptimizers.

(** ** GARCH variant of the multi-period optimiser *)

(** [u + v] *)
Definition vadd (u v : list Q) : list Q := map2 Qplus u v.

(** [_estimate_garch_parameters]: the tensors [omega], [alpha], [beta]; the
    variance the loop computes for each asset is not used. *)
Definition _estimate_garch_parameters (N : nat)
  : list Q * list Q * list Q :=
  (repeat 0.0001 N, repeat 0.1 N, repeat 0.85 N).

(** [var_t = omega + alpha * var_t + beta * var_t] *)
Definition garch_update (garch_params : list Q * list Q * list Q)
    (var_t : list Q) : list Q :=
  let '(omega, alpha, beta) := garch_params in
  vadd (vadd omega (vmul alpha var_t)) (vmul beta var_t).

(** The values [var_t] takes in the [n] turns of the forecast loop *)
Fixpoint garch_variances (garch_params : list Q * list Q * list Q)
    (var_t : list Q) (n : nat) : list (list Q) :=
  match n with
  | O => []
  | S k =>
      let var_t' := garch_update garch_params var_t in
      var_t' :: garch_variances garch_params var_t' k
  end.

Section Garch.

Variable lbfgs : nat -> (list Q -> list Q) -> (list Q -> Q) -> list Q -> list Q.
Variable sqrtQ : Q -> Q.

(** [torch.std(returns, dim=0, unbiased=True)] and
    [torch.corrcoef(returns.T)] *)
Variable std_dim0 : list (list Q) -> list Q.
Variable corrcoef_T : list (list Q) -> list (list Q).

Variable N : nat.
Variable returns : list (list Q).
Variable n_periods : nat.
Variable transaction_cost_rate : Q.
Variable risk_aversion : Q.

(** [corr * (vol_t.unsqueeze(0) * vol_t.unsqueeze(1))] *)
Definition forecast_cov (var_t : list Q) : list (list Q) :=
  let vol_t := map sqrtQ var_t in
  let corr := corrcoef_T returns in
  map2 (fun corr_i vol_i =>
          map2 (fun c vol_j => c * (vol_j * vol_i)) corr_i vol_t)
       corr vol_t.

Definition _forecast_covariances
    (garch_params : list Q * list Q * list Q) : list (list (list Q)) :=
  let current_vol := std_dim0 returns in
  let current_var := map (fun v => v * v) current_vol in
  map forecast_cov (garch_variances garch_params current_var n_periods).

(** *** [_solve_period_with_cov] *)

Definition period_loss (cov_t : list (list Q))
    (current_weights weights : list Q) : Q :=
  let turnover := vsum (vabs (vsub weights current_weights)) in
  let tc_cost := turnover * transaction_cost_rate in
  let expected_return := dot weights (mean_returns N returns) in
  let variance := quadform weights cov_t in
  let utility :=
    expected_return - 0.5 * risk_aversion * variance - tc_cost in
  - utility.

Definition _solve_period_with_cov (current_weights : list Q)
    (cov_t : list (list Q)) (bounds : Q * Q) : list Q :=
  project bounds
    (lbfgs 50 (project bounds) (period_loss cov_t current_weights)
           current_weights).

(** *** [optimize_with_garch] *)

(** Body of [for t in range(self.n_periods)] *)
Definition garch_step (cov_forecasts : list (list (list Q)))
    (initial_weights : list Q) (bounds : Q * Q)
    (optimal_weights : list (list Q)) (t : nat) : list (list Q) :=
  set_at t
    (_solve_period_with_cov
       (if (t =? 0)%nat then initial_weights
        else nth (t - 1) optimal_weights [])
       (nth t cov_forecasts []) bounds)
    optimal_weights.

(** The table when the loop is left *)
Definition garch_table (initial_weights : list Q) (bounds : Q * Q)
  : list (list Q) :=
  let garch_params := _estimate_garch_parameters N in
  let cov_forecasts := _forecast_covariances garch_params in
  fold_left (garch_step cov_forecasts initial_weights bounds)
            (seq 0 n_periods) (zeros2 n_periods N).

Definition optimize_with_garch (initial_weights : list Q) (bounds : Q * Q)
  : result MultiPeriodResult :=
  let optimal_weights := garch_table initial_weights bounds in
  stats <- _simulate_forward N returns n_periods transaction_cost_rate
                             risk_aversion optimal_weights initial_weights ;;
  let '(utility, wealth, total_tc, avg) := stats in
  Ok {| optimal_weights := optimal_weights;
        expected_utility := utility;
        terminal_wealth := wealth;
        total_transaction_costs := total_tc;
        average_period_return := avg;
        rebalancing_plan :=
          map (fun t => (t, nth t optimal_weights [])) (seq 0 n_periods) |}.

End Garch.

(** ** [ModernPortfolioFramework]: the methods that drive the backtester and
    the multi-period optimiser

    The framework owns [returns] (with [N] columns), a backtester whose
    [initial_capital] it may overwrite, and a multi-period optimiser that
    is created on demand and kept. *)

Record MultiPeriodOptimizer : Type := mkMultiPeriodOptimizer {
  mpo_n_periods : nat;
  mpo_transaction_cost_rate : Q;
  mpo_risk_aversion : Q
}.

Record Framework : Type := mkFramework {
  backtester_initial_capital : Q;
  multi_period_optimizer : option MultiPeriodOptimizer
}.

(** State left by the constructor *)
Definition new_framework : Framework :=
  {| backtester_initial_capital := 1000000;
     multi_period_optimizer := None |}.

Section FrameworkMethods.

Variable sqrtQ : Q -> Q.
Variables lbfgs adam :
  nat -> (list Q -> list Q) -> (list Q -> Q) -> list Q -> list Q.
Variable std_dim0 : list (list Q) -> list Q.
Variable corrcoef_T : list (list Q) -> list (list Q).

Variable N : nat.
Variable returns : list (list Q).

(** [ModernPortfolioFramework.run_backtest] *)
Definition framework_run_backtest (fw : Framework) (strategy : string)
    (lookback_window : nat) (rebalance_freq : RebalanceFrequency)
    (transaction_cost_rate initial_capital : Q)
  : Framework * result BacktestResult :=
  let fw' :=
    {| backtester_initial_capital := initial_capital;
       multi_period_optimizer := multi_period_optimizer fw |} in
  (fw',
   run_backtest sqrtQ lbfgs adam N returns initial_capital strategy
                lookback_window rebalance_freq 0.05 PROPORTIONAL
                transaction_cost_rate 60 (0, 1)).

(** [ModernPortfolioFramework.optimize_multi_period] *)
Definition optimize_multi_period (fw : Framework) (n_periods : nat)
    (initial_weights : option (list Q))
    (transaction_cost_rate risk_aversion : Q) (use_garch : bool)
  : Framework * result MultiPeriodResult :=
  let fresh :=
    mkMultiPeriodOptimizer n_periods transaction_cost_rate risk_aversion in
  let mpo :=
    match multi_period_optimizer fw with
    | None => fresh
    | Some kept =>
        if negb (mpo_n_periods kept =? n_periods)%nat then fresh else kept
    end in
  let fw' :=
    {| backtester_initial_capital := backtester_initial_capital fw;
       multi_period_optimizer := Some mpo |} in
  let initial_weights :=
    match initial_weights with
    | None => vdiv (ones N) (inject_Z (Z.of_nat N))
    | Some w => w
    end in
  (fw',
   if use_garch then
     optimize_with_garch lbfgs sqrtQ std_dim0 corrcoef_T N returns
       (mpo_n_periods mpo) (mpo_transaction_cost_rate mpo)
       (mpo_risk_aversion mpo) initial_weights (0, 1)
   else
     optimize_dynamic_program lbfgs N returns (mpo_n_periods mpo)
       (mpo_transaction_cost_rate mpo) (mpo_risk_aversion mpo)
       initial_weights (0, 1)).

End FrameworkMethods.

(** ** More definitions used to state properties *)

(** Number of periods between two rebalances under a calendar policy other
    than DAILY *)
Definition calendar_period (f : RebalanceFrequency) : option nat :=
  match f with
  | WEEKLY => Some 5%nat
  | MONTHLY => Some 21%nat
  | QUARTERLY => Some 63%nat
  | ANNUALLY => Some 252%nat
  | DAILY | THRESHOLD => None
  end.

(** [t] is a whole number of periods [k] after [start], and after it *)
Definition on_schedule (start k t : nat) : bool :=
  (start <? t)%nat && ((t - start) mod k =? 0)%nat.

(** Turnover of a plan: the sum over its rows of the distance to the row
    before, the first row being compared with [initial_weights] *)
Fixpoint plan_turnover (previous : list Q) (plan : list (list Q)) : Q :=
  match plan with
  | [] => 0
  | w :: rest => vsum (vabs (vsub w previous)) + plan_turnover w rest
  end.

(** The tensor [asset_values] of a turn of the backtest loop, before it is
    divided by its sum *)
Definition drifted_asset_values (returns : list (list Q)) (t : nat)
    (s : LoopState) : list Q :=
  let returns_t := nth t returns [] in
  let value :=
    portfolio_value s * (1 + vsum (vmul (current_weights s) returns_t)) in
  vmul (vscale (current_weights s) value) (map (fun r => 1 + r) returns_t).

(** ** [PortfolioMoments] *)

Record PortfolioMoments : Type := mkPortfolioMoments {
  pm_mean : Q;
  pm_variance : Q;
  pm_skewness : Q;
  pm_kurtosis : Q
}.

(** [torch.sqrt(torch.tensor(max(0, self.variance))).item()] *)
Definition volatility (sqrtQ : Q -> Q) (pm : PortfolioMoments) : Q :=
  sqrtQ (Qmax 0 (pm_variance pm)).

(** [(self.mean - risk_free_rate) / vol if vol > 1e-10 else 0.0] *)
Definition moments_sharpe_ratio (sqrtQ : Q -> Q) (pm : PortfolioMoments)
    (risk_free_rate : Q) : result Q :=
  let vol := volatility sqrtQ pm in
  if Qgtb vol 1e-10 then py_div (pm_mean pm - risk_free_rate) vol else Ok 0.

(** ** [compute_transaction_costs] in IEEE 754 arithmetic

    The rational model of [compute_transaction_costs] gives the value of
    the cost formula; the function below evaluates the same lines
    (fin.py:216-236) as the interpreter does, in correctly rounded binary
    floating point ([SpecFloat]), on float32 or float64 tensors.
    - An operation on a tensor rounds to the tensor's dtype; a Python
      scalar that meets a tensor is converted to that dtype first.
    - [.item()] converts to a Python float, which is binary64, without
      rounding; arithmetic on Python floats is binary64.
    - The square root of a negative number is [nan], and [nan] is passed
      on by every operation.
    - [torch.sum] adds from left to right, starting from 0.  Every order
      of summation gives this result on the tensors it is applied to
      below: tensors of one or two entries, and tensors of zeros. *)

Record dtype := mkDtype { mantissa_bits : Z; exponent_max : Z }.

Definition float32 : dtype := mkDtype 24 128.
Definition float64 : dtype := mkDtype 53 1024.

(** Conversion of a float to the format [dt], rounding to nearest even *)
Definition cast (dt : dtype) (x : spec_float) : spec_float :=
  match x with
  | S754_finite s m e => binary_round (mantissa_bits dt) (exponent_max dt) s m e
  | _ => x
  end.

(** [float(n)] for a Python int [n] *)
Definition py_int (n : Z) : spec_float := binary_normalize 53 1024 n 0 false.

(** The Python float written as the decimal [n / d]: the binary64 number
    nearest to it *)
Definition py_float (n : Z) (d : positive) : spec_float :=
  SFdiv 53 1024 (py_int n) (py_int (Zpos d)).

(** Neither [nan] nor an infinity *)
Definition finite_float (x : spec_float) : bool :=
  match x with
  | S754_zero _ | S754_finite _ _ _ => true
  | _ => false
  end.

(** [0.0] or [-0.0] *)
Definition is_zero (x : spec_float) : bool :=
  match x with
  | S754_zero _ => true
  | _ => false
  end.

(** [torch.tensor(l, dtype=dt)] for a list of Python floats *)
Definition tensor (dt : dtype) (l : list spec_float) : list spec_float :=
  map (cast dt) l.

(** [t.item()] *)
Definition item (x : spec_float) : spec_float := cast float64 x.

Section FloatTensors.

Variable dt : dtype.

Definition tensor_sub : spec_float -> spec_float -> spec_float :=
  SFsub (mantissa_bits dt) (exponent_max dt).
Definition tensor_add : spec_float -> spec_float -> spec_float :=
  SFadd (mantissa_bits dt) (exponent_max dt).
Definition tensor_mul : spec_float -> spec_float -> spec_float :=
  SFmul (mantissa_bits dt) (exponent_max dt).
Definition tensor_sqrt : spec_float -> spec_float :=
  SFsqrt (mantissa_bits dt) (exponent_max dt).

(** [torch.sum(v)] *)
Definition tensor_sum (v : list spec_float) : spec_float :=
  fold_left tensor_add v (S754_zero false).

Definition compute_transaction_costs_ieee
    (old_weights new_weights : list spec_float) (portfolio_value : spec_float)
    (cost_model : TransactionCostModel)
    (cost_rate fixed_cost market_impact_coef : spec_float) : spec_float :=
  let abs_diff := map SFabs (map2 tensor_sub new_weights old_weights) in
  let trade_amounts :=
    map (fun d => tensor_mul d (cast dt portfolio_value)) abs_diff in
  match cost_model with
  | NONE => S754_zero false
  | PROPORTIONAL => SFmul 53 1024 (item (tensor_sum trade_amounts)) cost_rate
  | FIXED_PLUS_PROPORTIONAL =>
      let n_trades :=
        List.length
          (filter (fun d => SFltb (cast dt (py_float 1 1000000)) d)
                  abs_diff) in
      let proportional :=
        SFmul 53 1024 (item (tensor_sum trade_amounts)) cost_rate in
      let fixed := SFmul 53 1024 (py_int (Z.of_nat n_trades)) fixed_cost in
      SFadd 53 1024 proportional fixed
  | MARKET_IMPACT =>
      let proportional :=
        SFmul 53 1024 (item (tensor_sum trade_amounts)) cost_rate in
      let market_impact :=
        SFmul 53 1024 market_impact_coef
              (item (tensor_sum (map tensor_sqrt trade_amounts))) in
      SFadd 53 1024 proportional market_impact
  end.

(** The call of fin.py:340-343, which leaves [fixed_cost] and
    [market_impact_coef] at their default 0.0 *)
Definition rebalance_cost_ieee (cost_model : TransactionCostModel)
    (cost_rate : spec_float) (current_weights target_weights : list spec_float)
    (portfolio_value : spec_float) : spec_float :=
  compute_transaction_costs_ieee current_weights target_weights
    portfolio_value cost_model cost_rate (py_float 0 1) (py_float 0 1).

End FloatTensors.

(** Scenario C of the specification: old = [0.5, 0.5], new = [0.7, 0.3],
    V = 1000, rate = 0.01, on tensors of dtype [dt] *)
Definition scenario_c_cost (dt : dtype) : spec_float :=
  compute_transaction_costs_ieee dt
    (tensor dt [py_float 1 2; py_float 1 2])
    (tensor dt [py_float 7 10; py_float 3 10])
    (py_float 1000 1) PROPORTIONAL (py_float 1 100)
    (py_float 0 1) (py_float 0 1).

(** A rebalance from [0.5, 0.5] to [0.7, 0.3] at rate 0.001, on float32
    weights as the loop of [run_backtest] holds them *)
Definition sample_rebalance_cost (cost_model : TransactionCostModel)
    (portfolio_value : spec_float) : spec_float :=
  rebalance_cost_ieee float32 cost_model (py_float 1 1000)
    (tensor float32 [py_float 1 2; py_float 1 2])
    (tensor float32 [py_float 7 10; py_float 3 10])
    portfolio_value.

(** * Properties *)

(** ** Sums *)

Lemma vsum_cons (x : Q) (v : list Q) : vsum (x :: v) = x + vsum v.
Proof. reflexivity. Qed.

Lemma vsum_vscale (u : list Q) (k : Q) : vsum (vscale u k) == vsum u * k.
Proof.
  induction u as [|x u IH]; simpl.
  - ring.
  - rewrite IH. ring.
Qed.

Lemma vsum_vdiv (u : list Q) (k : Q) : vsum (vdiv u k) == vsum u / k.
Proof.
  induction u as [|x u IH]; simpl.
  - unfold Qdiv. ring.
  - rewrite IH. unfold Qdiv. ring.
Qed.

Lemma vsum_ext (A : Type) (f g : A -> Q) (l : list A) :
  (forall a, In a l -> f a == g a) -> vsum (map f l) == vsum (map g l).
Proof.
  induction l as [|a l IH]; intros H; simpl.
  - reflexivity.
  - rewrite (H a (or_introl eq_refl)), IH; [reflexivity|].
    intros b Hb. apply H. now right.
Qed.

Lemma sum_index_ext (n : nat) (f g : nat -> Q) :
  (forall i, (i < n)%nat -> f i == g i) -> sum_index n f == sum_index n g.
Proof.
  intros H. apply vsum_ext. intros i Hi. apply in_seq in Hi. apply H. lia.
Qed.

Lemma vsum_map_plus (A : Type) (f g : A -> Q) (l : list A) :
  vsum (map (fun a => f a + g a) l) == vsum (map f l) + vsum (map g l).
Proof.
  induction l as [|a l IH]; simpl.
  - ring.
  - rewrite IH. ring.
Qed.

Lemma vsum_map_mult_r (A : Type) (f : A -> Q) (k : Q) (l : list A) :
  vsum (map (fun a => f a * k) l) == vsum (map f l) * k.
Proof.
  induction l as [|a l IH]; simpl.
  - ring.
  - rewrite IH. ring.
Qed.

Lemma vsum_map_zero (A : Type) (l : list A) : vsum (map (fun _ => 0) l) == 0.
Proof.
  induction l as [|a l IH]; simpl.
  - reflexivity.
  - rewrite IH. ring.
Qed.

(** Exchange of two finite sums *)
Lemma vsum_swap (A B : Type) (f : A -> B -> Q) (la : list A) (lb : list B) :
  vsum (map (fun a => vsum (map (fun b => f a b) lb)) la)
  == vsum (map (fun b => vsum (map (fun a => f a b) la)) lb).
Proof.
  induction la as [|a la IH]; simpl.
  - symmetry. apply vsum_map_zero.
  - rewrite IH. symmetry. apply vsum_map_plus.
Qed.

(** A zip of two tensors of one length, read index by index *)
Lemma map2_index (f : Q -> Q -> Q) (u v : list Q) :
  List.length u = List.length v ->
  map2 f u v = map (fun i => f (nth i u 0) (nth i v 0)) (seq 0 (List.length u)).
Proof.
  revert v. induction u as [|a u IH]; intros [|b v] H; simpl in *;
    try reflexivity; try discriminate.
  f_equal. rewrite <- seq_shift, map_map. apply IH. lia.
Qed.

Lemma map2_length (A B C : Type) (f : A -> B -> C) (u : list A) (v : list B) :
  List.length (map2 f u v) = Nat.min (List.length u) (List.length v).
Proof.
  revert v. induction u as [|a u IH]; intros [|b v]; simpl; auto.
Qed.

Lemma abs_diff_self (w : list Q) : Forall (fun d => d == 0) (vabs (vsub w w)).
Proof.
  induction w as [|a w IH]; [constructor|].
  change (vabs (vsub (a :: w) (a :: w)))
    with (Qabs (a - a) :: vabs (vsub w w)).
  constructor; [|exact IH].
  transitivity (Qabs 0); [apply Qabs_wd; ring | reflexivity].
Qed.

Lemma vsum_all_zero (v : list Q) : Forall (fun d => d == 0) v -> vsum v == 0.
Proof.
  induction 1 as [|d v Hd _ IH]; simpl.
  - reflexivity.
  - rewrite Hd, IH. ring.
Qed.

(** ** Transaction cost model *)

Lemma proportional_cost_unfold (sqrtQ : Q -> Q) (old new : list Q)
    (V rate fixed impact : Q) :
  compute_transaction_costs sqrtQ old new V PROPORTIONAL rate fixed impact
  == vsum (vabs (vsub new old)) * V * rate.
Proof.
  unfold compute_transaction_costs. rewrite vsum_vscale. reflexivity.
Qed.

Lemma SFsub_diag (p e : Z) (x : spec_float) :
  finite_float x = true -> SFsub p e x x = S754_zero false.
Proof.
  destruct x as [s|s| |s m ex]; try discriminate; intros _.
  - destruct s; reflexivity.
  - unfold SFsub. rewrite Z.min_id. unfold shl_align.
    rewrite Z.sub_diag. reflexivity.
Qed.

Lemma tensor_sum_zeros (dt : dtype) (v : list spec_float) :
  Forall (fun x => is_zero x = true) v -> tensor_sum dt v = S754_zero false.
Proof.
  unfold tensor_sum. induction 1 as [|x v Hx _ IH]; [reflexivity|].
  cbn [fold_left]. destruct x as [s| | |]; try discriminate.
  destruct s; exact IH.
Qed.

Lemma no_trade_amounts_ieee (dt : dtype) (w : list spec_float)
    (V : spec_float) :
  Forall (fun x => finite_float x = true) w ->
  finite_float V = true ->
  Forall (fun x => is_zero x = true)
         (map (fun d => tensor_mul dt d V)
              (map SFabs (map2 (tensor_sub dt) w w))).
Proof.
  intros Hw HV. induction Hw as [|x w Hx _ IH]; [constructor|].
  cbn [map2 map]. constructor; [|exact IH].
  unfold tensor_sub. rewrite SFsub_diag by exact Hx.
  destruct V as [s|s| |s m e]; try discriminate; reflexivity.
Qed.

Lemma no_trade_costs_zero_ieee (dt : dtype) (w : list spec_float)
    (V rate fixed impact : spec_float) :
  Forall (fun x => finite_float x = true) w ->
  finite_float (cast dt V) = true ->
  finite_float rate = true ->
  is_zero (compute_transaction_costs_ieee dt w w V PROPORTIONAL rate fixed
                                          impact) = true.
Proof.
  intros Hw HV Hr. unfold compute_transaction_costs_ieee.
  rewrite (tensor_sum_zeros dt _ (no_trade_amounts_ieee dt w _ Hw HV)).
  destruct rate as [s|s| |s m e]; try discriminate; reflexivity.
Qed.







(** ** Running maximum and drawdown *)

Lemma max_upto_shift (m x : Q) (r : list Q) (t : nat) :
  max_upto (fun s => nth s (m :: x :: r) 0) (S t)
  = max_upto (fun s => nth s (Qmax m x :: r) 0) t.
Proof.
  induction t as [|t IH].
  - reflexivity.
  - change (max_upto (fun s => nth s (m :: x :: r) 0) (S (S t)))
      with (Qmax (max_upto (fun s => nth s (m :: x :: r) 0) (S t))
                 (nth (S (S t)) (m :: x :: r) 0)).
    rewrite IH. reflexivity.
Qed.

Lemma cummax_from_index (m : Q) (v : list Q) :
  cummax_from m v
  = map (fun t => max_upto (fun s => nth s (m :: v) 0) (S t))
        (seq 0 (List.length v)).
Proof.
  revert m. induction v as [|x r IH]; intros m.
  - reflexivity.
  - cbn [cummax_from List.length seq map]. f_equal.
    rewrite IH, <- seq_shift, map_map.
    apply map_ext. intros t. symmetry. apply max_upto_shift.
Qed.

(** [torch.cummax] computes the running maximum of the specification. *)
Lemma cummax_index (V : list Q) :
  cummax V = map (spec_running_max V) (seq 0 (List.length V)).
Proof.
  destruct V as [|x r]; [reflexivity|].
  cbn [cummax List.length seq map]. f_equal.
  rewrite cummax_from_index, <- seq_shift, map_map. reflexivity.
Qed.

Lemma cummax_length (V : list Q) : List.length (cummax V) = List.length V.
Proof. rewrite cummax_index. now rewrite length_map, length_seq. Qed.

Lemma map2_maps (A : Type) (f : Q -> Q -> Q) (g h : A -> Q) (l : list A) :
  map2 f (map g l) (map h l) = map (fun a => f (g a) (h a)) l.
Proof. induction l as [|a l IH]; simpl; [reflexivity | now rewrite IH]. Qed.

Lemma list_as_index_map (V : list Q) :
  V = map (fun t => nth t V 0) (seq 0 (List.length V)).
Proof.
  induction V as [|x r IH]; [reflexivity|].
  cbn [List.length seq map]. f_equal.
  rewrite <- seq_shift, map_map. exact IH.
Qed.

Lemma drawdown_index (V : list Q) :
  drawdown V = map (spec_drawdown V) (seq 0 (List.length V)).
Proof.
  unfold drawdown, vsub. rewrite cummax_index.
  rewrite (list_as_index_map V) at 1.
  rewrite !map2_maps. reflexivity.
Qed.

Lemma fold_min_upto (f : nat -> Q) (n : nat) :
  fold_left Qmin (map f (seq 1 n)) (f O) = min_upto f n.
Proof.
  induction n as [|n IH]; [reflexivity|].
  rewrite seq_S, map_app, fold_left_app, IH. reflexivity.
Qed.

(** The code's drawdown metric is the specification's formula. *)
Lemma max_drawdown_of_spec (V : list Q) :
  V <> [] -> max_drawdown_of V = Ok (spec_max_drawdown V).
Proof.
  intros HV. unfold max_drawdown_of, spec_max_drawdown.
  rewrite drawdown_index.
  destruct V as [|x r]; [congruence|].
  cbn [List.length seq map vmin].
  replace (S (List.length r) - 1)%nat with (List.length r) by lia.
  rewrite <- fold_min_upto. reflexivity.
Qed.

Lemma min_upto_le (f : nat -> Q) (n t : nat) :
  (t <= n)%nat -> min_upto f n <= f t.
Proof.
  induction n as [|n IH]; intros Ht.
  - replace t with O by lia. apply Qle_refl.
  - cbn [min_upto]. destruct (Nat.eq_dec t (S n)) as [->|Hne].
    + apply Q.le_min_r.
    + eapply Qle_trans; [apply Q.le_min_l | apply IH; lia].
Qed.

Lemma min_upto_glb (f : nat -> Q) (n : nat) (c : Q) :
  (forall t, (t <= n)%nat -> c <= f t) -> c <= min_upto f n.
Proof.
  induction n as [|n IH]; intros H.
  - apply H. lia.
  - cbn [min_upto]. apply Q.min_glb; [apply IH; intros; apply H; lia|].
    apply H. lia.
Qed.

Lemma max_upto_ge (f : nat -> Q) (n t : nat) :
  (t <= n)%nat -> f t <= max_upto f n.
Proof.
  induction n as [|n IH]; intros Ht.
  - replace t with O by lia. apply Qle_refl.
  - cbn [max_upto]. destruct (Nat.eq_dec t (S n)) as [->|Hne].
    + apply Q.le_max_r.
    + eapply Qle_trans; [apply IH; lia | apply Q.le_max_l].
Qed.

(** C7. On a non-empty series of positive values the drawdown metric is
    [min_t (V_t - running_max(V)_t) / running_max(V)_t], which is not
    positive; on [100, 120, 90, 110] it is -0.25. *)
Theorem max_drawdown_formula (V : list Q) :
  V <> [] ->
  Forall (fun v => 0 < v) V ->
  exists d,
    max_drawdown_of V = Ok d /\ d == spec_max_drawdown V /\ d <= 0
    /\ returns_with (fun d' => d' == -0.25)
                    (max_drawdown_of [100; 120; 90; 110]).
Proof.
  intros HV Hpos. exists (spec_max_drawdown V).
  split; [apply max_drawdown_of_spec, HV|].
  split; [reflexivity|]. split.
  - unfold spec_max_drawdown.
    eapply Qle_trans; [apply (min_upto_le _ _ O); lia|].
    unfold spec_drawdown, spec_running_max. cbn [max_upto].
    unfold Qdiv. setoid_replace (nth 0 V 0 - nth 0 V 0) with 0 by ring.
    rewrite Qmult_0_l. apply Qle_refl.
  - vm_compute. reflexivity.
Qed.

Lemma max_drawdown_formula_witness :
  exists d,
    max_drawdown_of [100; 120; 90; 110] = Ok d
    /\ d == spec_max_drawdown [100; 120; 90; 110] /\ d <= 0
    /\ returns_with (fun d' => d' == -0.25)
                    (max_drawdown_of [100; 120; 90; 110]).
Proof.
  apply (max_drawdown_formula [100; 120; 90; 110]).
  - discriminate.
  - repeat constructor.
Defined.

(** ** Indexed writes and the simulation loop *)

Lemma set_at_length (A : Type) (i : nat) (x : A) (l : list A) :
  List.length (set_at i x l) = List.length l.
Proof.
  revert i. induction l as [|a l IH]; intros [|i]; simpl; auto.
Qed.

Lemma nth_set_at_other (A : Type) (i t : nat) (x d : A) (l : list A) :
  i <> t -> nth i (set_at t x l) d = nth i l d.
Proof.
  revert i t. induction l as [|a l IH]; intros [|i] [|t] H; simpl; auto.
  congruence.
Qed.

Lemma nth_set_at_same (A : Type) (t : nat) (x d : A) (l : list A) :
  (t < List.length l)%nat -> nth t (set_at t x l) d = x.
Proof.
  revert t. induction l as [|a l IH]; intros [|t] H; simpl in *;
    try lia; auto.
  apply IH. lia.
Qed.

Lemma nth_zeros (n i : nat) : nth i (zeros n) 0 = 0.
Proof.
  unfold zeros. destruct (Nat.lt_ge_cases i n) as [H|H].
  - now rewrite nth_repeat_lt.
  - apply nth_overflow. now rewrite repeat_length.
Qed.

Lemma bind_ok (A B : Type) (r : result A) (k : A -> result B) (b : B) :
  bind r k = Ok b -> exists a, r = Ok a /\ k a = Ok b.
Proof. destruct r as [a|e]; simpl; [eauto | discriminate]. Qed.

(** An invariant of the loop body is an invariant of the loop. *)
Lemma for_each_invariant (S : Type) (P : S -> Prop)
    (body : nat -> S -> result S) (ts : list nat) :
  (forall t s s', In t ts -> P s -> body t s = Ok s' -> P s') ->
  forall s s', P s -> for_each ts body s = Ok s' -> P s'.
Proof.
  induction ts as [|t ts IH]; intros Hbody s s' Hs Hrun; simpl in Hrun.
  - now inversion Hrun; subst.
  - apply bind_ok in Hrun as (s1 & H1 & H2).
    apply (IH (fun u a b Hu => Hbody u a b (or_intror Hu)) s1 s');
      [|exact H2].
    apply (Hbody t s s1); auto. now left.
Qed.

Section LoopFacts.

Variable sqrtQ : Q -> Q.
Variables lbfgs adam : nat -> (list Q -> list Q) -> (list Q -> Q) ->
                       list Q -> list Q.
Variable N : nat.
Variable returns : list (list Q).
Variable initial_capital : Q.
Variable optimization_method : string.
Variable lookback_window : nat.
Variable rebalance_freq : RebalanceFrequency.
Variable rebalance_threshold : Q.
Variable cost_model : TransactionCostModel.
Variable cost_rate : Q.
Variable min_history : nat.
Variable bounds : Q * Q.

Let step :=
  backtest_step sqrtQ lbfgs adam N returns optimization_method
                lookback_window rebalance_freq rebalance_threshold
                cost_model cost_rate bounds.

Let walk :=
  walk_forward sqrtQ lbfgs adam N returns initial_capital
               optimization_method lookback_window rebalance_freq
               rebalance_threshold cost_model cost_rate min_history bounds.

Lemma rebalance_keeps_values (t : nat) (s s' : LoopState) :
  rebalance sqrtQ lbfgs adam N returns optimization_method lookback_window
            cost_model cost_rate bounds t s = Ok s' ->
  portfolio_values s' = portfolio_values s.
Proof.
  unfold rebalance. intros H. apply bind_ok in H as (w & _ & H).
  now inversion H.
Qed.

(** A turn of the loop writes [portfolio_values] at its own index only. *)
Lemma step_values (t : nat) (s s' : LoopState) :
  step t s = Ok s' ->
  List.length (portfolio_values s') = List.length (portfolio_values s)
  /\ forall i, i <> t ->
       nth i (portfolio_values s') 0 = nth i (portfolio_values s) 0.
Proof.
  unfold step, backtest_step. intros H.
  apply bind_ok in H as (go & _ & H).
  apply bind_ok in H as (s1 & H1 & H).
  inversion H; subst s'; clear H. cbn [realize portfolio_values].
  assert (E : portfolio_values s1 = portfolio_values s).
  { destruct go; [eapply rebalance_keeps_values; eauto|].
    now inversion H1. }
  rewrite set_at_length, E. split; [reflexivity|].
  intros i Hi. now rewrite nth_set_at_other.
Qed.

(** The entries below [min_history] are those written before the loop. *)
Lemma walk_forward_values (s : LoopState) :
  walk = Ok s ->
  List.length (portfolio_values s) = List.length returns
  /\ forall i, (i < min_history)%nat ->
       nth i (portfolio_values s) 0
       = nth i (set_at 0 initial_capital (zeros (List.length returns))) 0.
Proof.
  unfold walk, walk_forward. intros H.
  apply bind_ok in H as (s0 & H0 & H).
  unfold initial_state in H0.
  destruct (List.length returns) as [|T'] eqn:ET; [discriminate|].
  inversion H0; subst s0; clear H0.
  refine (for_each_invariant _
    (fun s =>
      List.length (portfolio_values s) = S T'
      /\ forall i, (i < min_history)%nat ->
           nth i (portfolio_values s) 0
           = nth i (set_at 0 initial_capital (zeros (S T'))) 0)
    _ _ _ _ _ _ H).
  - intros t s1 s2 Ht [Hl Hv] Hs.
    apply step_values in Hs as [Hl' Hv'].
    split; [congruence|]. intros i Hi.
    rewrite Hv' by (apply in_seq in Ht; lia). now apply Hv.
  - cbn [portfolio_values]. split; [|reflexivity].
    cbn [List.length]. now rewrite repeat_length.
Qed.

End LoopFacts.

Lemma drawdown_ge_minus_one (x m : Q) : 0 <= x -> 0 < m -> -1 <= (x - m) / m.
Proof.
  intros Hx Hm. apply Qle_shift_div_l; [exact Hm | lra].
Qed.

(** A series that starts at a positive value, is zero at index 1 and is
    nowhere negative has maximum drawdown -1. *)
Lemma zero_entry_drawdown (V : list Q) :
  (2 <= List.length V)%nat ->
  0 < nth 0 V 0 ->
  nth 1 V 0 == 0 ->
  (forall i, (i < List.length V)%nat -> 0 <= nth i V 0) ->
  spec_max_drawdown V == -1.
Proof.
  intros Hlen H0 H1 Hnn. apply Qle_antisym.
  - unfold spec_max_drawdown.
    eapply Qle_trans; [apply (min_upto_le _ _ 1%nat); lia|].
    unfold spec_drawdown, spec_running_max. cbn [max_upto].
    rewrite H1. rewrite Q.max_l by lra.
    apply Qle_shift_div_r; [exact H0 | lra].
  - apply min_upto_glb. intros t Ht. unfold spec_drawdown.
    apply drawdown_ge_minus_one; [apply Hnn; lia|].
    eapply Qlt_le_trans; [exact H0|].
    unfold spec_running_max. apply (max_upto_ge (fun s => nth s V 0)). lia.
Qed.

(** A run that returns a report with [min_history >= 2] has at least two
    periods: with none the first indexed write raises, and with one the loop
    is empty, the only recorded return is 0 and the profit factor divides
    by the zero sum of the losses. *)
Lemma reported_run_has_two_periods (sqrtQ : Q -> Q)
    (lbfgs adam : nat -> (list Q -> list Q) -> (list Q -> Q) ->
                  list Q -> list Q)
    (N : nat) (returns : list (list Q)) (initial_capital : Q)
    (optimization_method : string) (lookback_window : nat)
    (rebalance_freq : RebalanceFrequency) (rebalance_threshold : Q)
    (cost_model : TransactionCostModel) (cost_rate : Q) (min_history : nat)
    (bounds : Q * Q) (res : BacktestResult) :
  (2 <= min_history)%nat ->
  run_backtest sqrtQ lbfgs adam N returns initial_capital optimization_method
               lookback_window rebalance_freq rebalance_threshold cost_model
               cost_rate min_history bounds = Ok res ->
  (2 <= List.length returns)%nat.
Proof.
  intros Hmin Hrun. destruct returns as [|r [|r' rest]]; [| |simpl; lia].
  - discriminate Hrun.
  - exfalso. unfold run_backtest, walk_forward, range in Hrun.
    cbn [List.length] in Hrun.
    replace (1 - min_history)%nat with 0%nat in Hrun by lia.
    cbn [seq for_each initial_state List.length bind portfolio_values
         portfolio_returns zeros repeat set_at] in Hrun.
    unfold _compute_performance_metrics in Hrun.
    cbn [rev app max_drawdown_of drawdown cummax vsub map2 vmin fold_left
         bind map filter] in Hrun.
    change (Qgtb 0 0) with false in Hrun.
    cbn [negb filter List.length Nat.ltb Nat.leb vsum fold_right] in Hrun.
    change (py_div 0 (Qabs (0 + 0))) with (@Raise Q ZeroDivisionError) in Hrun.
    discriminate Hrun.
Qed.

(** C9. With [min_history >= 2] the entries 1 .. [min_history - 1] of
    [portfolio_values] keep the 0 of [torch.zeros] while entry 0 holds the
    positive initial capital; if no simulated value is negative the
    reported [max_drawdown] is -1. *)
Theorem warmup_zeros_force_drawdown (sqrtQ : Q -> Q)
    (lbfgs adam : nat -> (list Q -> list Q) -> (list Q -> Q) ->
                  list Q -> list Q)
    (N : nat) (returns : list (list Q)) (initial_capital : Q)
    (optimization_method : string) (lookback_window : nat)
    (rebalance_freq : RebalanceFrequency) (rebalance_threshold : Q)
    (cost_model : TransactionCostModel) (cost_rate : Q) (min_history : nat)
    (bounds : Q * Q) (res : BacktestResult) :
  (2 <= min_history)%nat ->
  0 < initial_capital ->
  run_backtest sqrtQ lbfgs adam N returns initial_capital optimization_method
               lookback_window rebalance_freq rebalance_threshold cost_model
               cost_rate min_history bounds = Ok res ->
  (forall i, (min_history <= i < List.length returns)%nat ->
             0 <= nth i (res_portfolio_values res) 0) ->
  List.length (res_portfolio_values res) = List.length returns
  /\ nth 0 (res_portfolio_values res) 0 = initial_capital
  /\ (forall i, (1 <= i < min_history)%nat ->
                nth i (res_portfolio_values res) 0 = 0)
  /\ max_drawdown (res_metrics res) == -1.
Proof.
  intros Hmin Hcap Hrun Hnn.
  pose proof (reported_run_has_two_periods _ _ _ _ _ _ _ _ _ _ _ _ _ _ _
                Hmin Hrun) as HT.
  unfold run_backtest in Hrun.
  apply bind_ok in Hrun as (s & Hwalk & Hrun).
  apply bind_ok in Hrun as (m & Hm & Hrun).
  inversion Hrun; subst res; clear Hrun. cbn [res_portfolio_values res_metrics] in *.
  apply walk_forward_values in Hwalk as [Hlen Hlow].
  assert (Hzero : forall i, (1 <= i < min_history)%nat ->
                            nth i (portfolio_values s) 0 = 0).
  { intros i Hi. rewrite Hlow by lia.
    rewrite nth_set_at_other by lia. apply nth_zeros. }
  assert (Hfirst : nth 0 (portfolio_values s) 0 = initial_capital).
  { rewrite Hlow by lia. apply nth_set_at_same.
    unfold zeros. rewrite repeat_length. lia. }
  repeat (split; [assumption|]).
  unfold _compute_performance_metrics in Hm.
  destruct (rev (portfolio_values s)) as [|v_last ?]; [discriminate|].
  apply bind_ok in Hm as (d & Hd & Hm).
  apply bind_ok in Hm as (pf & _ & Hm).
  inversion Hm; subst m; clear Hm. cbn [max_drawdown].
  rewrite max_drawdown_of_spec in Hd
    by (intros E; rewrite E in Hlen; simpl in Hlen; lia).
  inversion Hd; subst d; clear Hd.
  apply zero_entry_drawdown.
  - lia.
  - now rewrite Hfirst.
  - rewrite Hzero by lia. reflexivity.
  - intros i Hi. destruct (Nat.lt_ge_cases i min_history) as [Hlt|Hge].
    + destruct i as [|i].
      * rewrite Hfirst. now apply Qlt_le_weak.
      * rewrite Hzero by lia. apply Qle_refl.
    + apply Hnn. lia.
Qed.

Lemma warmup_zeros_force_drawdown_witness :
  exists res,
    run_backtest rounded_sqrt stationary stationary 2
                 [[0; 0]; [0; 0]; [-0.5; 0]] 1000 "equal_weight" 252 MONTHLY
                 0.05 PROPORTIONAL 0.001 2 (0, 1) = Ok res
    /\ List.length (res_portfolio_values res) = 3%nat
    /\ nth 0 (res_portfolio_values res) 0 = 1000
    /\ (forall i, (1 <= i < 2)%nat -> nth i (res_portfolio_values res) 0 = 0)
    /\ max_drawdown (res_metrics res) == -1.
Proof.
  eexists. split; [vm_compute; reflexivity|].
  apply (warmup_zeros_force_drawdown rounded_sqrt stationary stationary 2
           [[0; 0]; [0; 0]; [-0.5; 0]] 1000 "equal_weight" 252 MONTHLY
           0.05 PROPORTIONAL 0.001 2 (0, 1)).
  - lia.
  - reflexivity.
  - vm_compute. reflexivity.
  - intros [|[|[|i]]] Hi; simpl in Hi; try lia.
    vm_compute. discriminate.
Defined.

(** ** The rebalance test of the loop *)

Lemma fold_max_zero (l : list Q) (x : Q) :
  Forall (fun d => d == 0) l -> x == 0 -> fold_left Qmax l x == 0.
Proof.
  revert x. induction l as [|a l IH]; intros x Hl Hx; simpl.
  - exact Hx.
  - inversion Hl as [|? ? Ha Hl']; subst. apply IH; [exact Hl'|].
    rewrite Q.max_l; [exact Hx|]. rewrite Ha, Hx. apply Qle_refl.
Qed.

(** Evaluated with the current weights in the place of the target, the
    THRESHOLD policy measures a drift of zero. *)
Lemma threshold_against_self (w : list Q) (i j : Z) (threshold : Q) (b : bool) :
  0 <= threshold ->
  should_rebalance w w THRESHOLD i j threshold = Ok b -> b = false.
Proof.
  intros Hthr H. unfold should_rebalance in H.
  pose proof (abs_diff_self w) as Hz.
  destruct (vabs (vsub w w)) as [|x r]; [discriminate|].
  cbn [vmax bind] in H. inversion H; subst b; clear H.
  inversion Hz as [|? ? Hx Hr]; subst.
  unfold Qgtb. apply negb_false_iff, Qle_bool_iff.
  rewrite (fold_max_zero r x Hr Hx). exact Hthr.
Qed.

(** Under THRESHOLD with a threshold that is not negative the backtest
    never rebalances, whatever the optimiser would propose. *)
Lemma threshold_never_rebalances (sqrtQ : Q -> Q)
    (lbfgs adam : nat -> (list Q -> list Q) -> (list Q -> Q) ->
                  list Q -> list Q)
    (N : nat) (returns : list (list Q)) (initial_capital : Q)
    (optimization_method : string) (lookback_window : nat)
    (rebalance_threshold : Q) (cost_model : TransactionCostModel)
    (cost_rate : Q) (min_history : nat) (bounds : Q * Q)
    (res : BacktestResult) :
  0 <= rebalance_threshold ->
  run_backtest sqrtQ lbfgs adam N returns initial_capital optimization_method
               lookback_window THRESHOLD rebalance_threshold cost_model
               cost_rate min_history bounds = Ok res ->
  res_rebalance_dates res = [].
Proof.
  intros Hthr Hrun. unfold run_backtest in Hrun.
  apply bind_ok in Hrun as (s & Hwalk & Hrun).
  apply bind_ok in Hrun as (m & _ & Hrun).
  inversion Hrun; subst res; clear Hrun. cbn [res_rebalance_dates].
  unfold walk_forward in Hwalk.
  apply bind_ok in Hwalk as (s0 & H0 & Hloop).
  refine (for_each_invariant _ (fun s => rebalance_dates s = [])
                             _ _ _ _ _ _ Hloop).
  - intros t s1 s2 _ Hs1 Hstep. unfold backtest_step in Hstep.
    apply bind_ok in Hstep as (go & Hgo & Hstep).
    unfold rebalance_test in Hgo.
    apply (threshold_against_self _ _ _ _ _ Hthr) in Hgo. subst go.
    cbn [bind] in Hstep. inversion Hstep; subst s2. exact Hs1.
  - unfold initial_state in H0.
    destruct (List.length returns); [discriminate|].
    now inversion H0.
Qed.

(** C1. On the run below the drifted weights are [2/3, 1/3] when period 2
    begins and the optimiser's candidate on the rolling window is
    [1/2, 1/2]: the drift 1/6 exceeds the threshold 0.05, so the policy
    evaluated against the candidate asks for a rebalance.  The loop tests
    the current weights against themselves, answers no, and the run ends
    without any rebalance. *)
Theorem threshold_drift_is_ignored :
  exists s res,
    (s0 <- initial_state 2 [[0; 0]; [1; 0]; [-0.5; 0]] 1000 1 ;;
     for_each (range 1 2)
       (backtest_step rounded_sqrt stationary stationary 2
          [[0; 0]; [1; 0]; [-0.5; 0]] "equal_weight" 252 THRESHOLD 0.05
          PROPORTIONAL 0.001 (0, 1)) s0) = Ok s
    /\ Forall2 Qeq (current_weights s) [2 # 3; 1 # 3]
    /\ returns_with (Forall2 Qeq [1 # 2; 1 # 2])
         (_optimize_weights rounded_sqrt stationary stationary 2
            (historical_window [[0; 0]; [1; 0]; [-0.5; 0]] 252 2)
            "equal_weight" (0, 1))
    /\ spec_rebalance_test rounded_sqrt stationary stationary 2
         [[0; 0]; [1; 0]; [-0.5; 0]] "equal_weight" 252 THRESHOLD 0.05
         (0, 1) 2 s = Ok true
    /\ rebalance_test THRESHOLD 0.05 2 s = Ok false
    /\ run_backtest rounded_sqrt stationary stationary 2
         [[0; 0]; [1; 0]; [-0.5; 0]] 1000 "equal_weight" 252 THRESHOLD 0.05
         PROPORTIONAL 0.001 1 (0, 1) = Ok res
    /\ res_rebalance_dates res = [].
Proof.
  eexists. eexists.
  split; [vm_compute; reflexivity|].
  split; [repeat constructor|].
  split; [vm_compute; repeat constructor|].
  split; [vm_compute; reflexivity|].
  split; [vm_compute; reflexivity|].
  split; [vm_compute; reflexivity|].
  reflexivity.
Qed.

(** ** Backward loop of the dynamic program *)

Section DynamicProgramFacts.

Variable lbfgs : nat -> (list Q -> list Q) -> (list Q -> Q) -> list Q -> list Q.
Variable N : nat.
Variable returns : list (list Q).
Variable n_periods : nat.
Variable transaction_cost_rate : Q.
Variable risk_aversion : Q.
Variable initial_weights : list Q.
Variable bounds : Q * Q.

Let step :=
  dp_step lbfgs N returns n_periods transaction_cost_rate risk_aversion
          initial_weights bounds.
Let table_before :=
  dp_table_before lbfgs N returns n_periods transaction_cost_rate
                  risk_aversion initial_weights bounds.
Let table :=
  dp_table lbfgs N returns n_periods transaction_cost_rate risk_aversion
           initial_weights bounds.

Lemma dp_step_length (ow : list (list Q)) (t : nat) :
  List.length (step ow t) = List.length ow.
Proof.
  unfold step, dp_step. destruct (t =? n_periods - 1)%nat;
    apply set_at_length.
Qed.

Lemma dp_step_other (ow : list (list Q)) (t i : nat) :
  i <> t -> nth i (step ow t) [] = nth i ow [].
Proof.
  intros H. unfold step, dp_step.
  destruct (t =? n_periods - 1)%nat; now apply nth_set_at_other.
Qed.

Lemma dp_fold_length (ts : list nat) (ow : list (list Q)) :
  List.length (fold_left step ts ow) = List.length ow.
Proof.
  revert ow. induction ts as [|t ts IH]; intros ow; simpl; [reflexivity|].
  now rewrite IH, dp_step_length.
Qed.

(** Turns of other periods leave row [i] as it is. *)
Lemma dp_fold_other (ts : list nat) (ow : list (list Q)) (i : nat) :
  ~ In i ts -> nth i (fold_left step ts ow) [] = nth i ow [].
Proof.
  revert ow. induction ts as [|t ts IH]; intros ow H; simpl; [reflexivity|].
  rewrite IH by (intros Hin; apply H; now right).
  apply dp_step_other. intros ->. apply H. now left.
Qed.

Lemma nth_zeros2 (r n i : nat) : (i < r)%nat -> nth i (zeros2 r n) [] = zeros n.
Proof. intros H. unfold zeros2. now apply nth_repeat_lt. Qed.

(** The loop reaches the turn of period [t] with [dp_table_before t] and
    goes on with the periods below [t]. *)
Lemma dp_table_split (t : nat) :
  (t < n_periods)%nat ->
  table = fold_left step (rev (seq 0 t)) (step (table_before t) t).
Proof.
  intros Ht. unfold table, dp_table, table_before, dp_table_before.
  assert (E : seq 0 n_periods
              = seq 0 t ++ [t] ++ seq (S t) (n_periods - S t)).
  { replace n_periods with (t + (1 + (n_periods - S t)))%nat at 1 by lia.
    rewrite !seq_app. cbn [Nat.add seq].
    now replace (t + 1)%nat with (S t) by lia. }
  rewrite E, !rev_app_distr, <- !app_assoc, !fold_left_app.
  reflexivity.
Qed.

(** When the turn of period [t > 0] begins, row [t - 1] of the table is
    still the row of zeros it was created with: the loop runs from the
    last period down and has not reached period [t - 1]. *)
Lemma dp_reference_not_yet_computed (t : nat) :
  (0 < t)%nat -> (t < n_periods)%nat ->
  dp_reference initial_weights t (table_before t) = zeros N.
Proof.
  intros H0 Ht. unfold dp_reference.
  destruct (Nat.eqb_spec t 0) as [E|_]; [lia|].
  unfold table_before, dp_table_before.
  rewrite dp_fold_other.
  - apply nth_zeros2. lia.
  - rewrite <- in_rev, in_seq. lia.
Qed.

(** Rows of the table the loop returns *)
Lemma dp_table_row (t : nat) :
  (t < n_periods)%nat ->
  nth t table []
  = if (t =? n_periods - 1)%nat then
      _solve_single_period lbfgs N returns transaction_cost_rate
                           risk_aversion initial_weights bounds
    else
      _solve_with_continuation lbfgs N returns transaction_cost_rate
        risk_aversion
        (if (t =? 0)%nat then initial_weights else zeros N)
        (nth (t + 1) table []) bounds.
Proof.
  intros Ht. rewrite (dp_table_split t Ht).
  rewrite dp_fold_other by (rewrite <- in_rev, in_seq; lia).
  assert (Hlen : (t < List.length (table_before t))%nat).
  { unfold table_before, dp_table_before. rewrite dp_fold_length.
    unfold zeros2. now rewrite repeat_length. }
  unfold step at 1. unfold dp_step.
  destruct (t =? n_periods - 1)%nat eqn:E.
  - now apply nth_set_at_same.
  - rewrite nth_set_at_same by exact Hlen.
    unfold _solve_with_continuation. f_equal. f_equal.
    + destruct (Nat.eqb_spec t 0) as [->|Hne]; [reflexivity|].
      rewrite <- (dp_reference_not_yet_computed t) by lia.
      unfold dp_reference. destruct (Nat.eqb_spec t 0); [lia|reflexivity].
    + destruct (Nat.eqb_spec t 0) as [->|Hne]; [reflexivity|].
      rewrite <- (dp_reference_not_yet_computed t) by lia.
      unfold dp_reference. destruct (Nat.eqb_spec t 0); [lia|reflexivity].
Qed.

End DynamicProgramFacts.

(** C2. Horizon 3, two assets, zero returns, cost rate 0, start
    [0.5, 0.5], bounds (0.1, 1).  When the turn of period 1 begins the table
    holds [[0, 0], [0, 0], w_2]; the reference handed to the solver of
    period 1 is the row [0, 0], while the optimal weights of period 0, which
    the loop computes afterwards, are [0.5, 0.5]. *)
Theorem dp_reference_is_uncomputed_row :
  let before :=
    dp_table_before stationary 2 [[0; 0]; [0; 0]] 3 0 1 [0.5; 0.5] (0.1, 1) 1 in
  let final :=
    dp_table stationary 2 [[0; 0]; [0; 0]] 3 0 1 [0.5; 0.5] (0.1, 1) in
  Forall2 (Forall2 Qeq) before [[0; 0]; [0; 0]; [1 # 2; 1 # 2]]
  /\ final
     = fold_left
         (dp_step stationary 2 [[0; 0]; [0; 0]] 3 0 1 [0.5; 0.5] (0.1, 1))
         [0%nat]
         (dp_step stationary 2 [[0; 0]; [0; 0]] 3 0 1 [0.5; 0.5] (0.1, 1)
                  before 1)
  /\ dp_reference [0.5; 0.5] 1 before = [0; 0]
  /\ Forall2 Qeq (nth 0 final []) [1 # 2; 1 # 2]
  /\ ~ Forall2 Qeq (dp_reference [0.5; 0.5] 1 before) (nth 0 final []).
Proof.
  cbv zeta.
  split; [vm_compute; repeat constructor|].
  split; [vm_compute; reflexivity|].
  split; [vm_compute; reflexivity|].
  split; [vm_compute; repeat constructor|].
  vm_compute. intros H. inversion H as [|? ? ? ? Hx _]; subst.
  discriminate Hx.
Qed.

(** ** Projection onto the box, then onto the unit sum *)

Lemma clamp_in_box (lo hi x : Q) :
  lo <= hi -> lo <= clamp lo hi x /\ clamp lo hi x <= hi.
Proof.
  intros H. unfold clamp. split.
  - apply Q.min_glb; [apply Q.le_max_r | exact H].
  - apply Q.le_min_r.
Qed.

Lemma project_sum (bounds : Q * Q) (w : list Q) :
  ~ vsum (clamp_ bounds w) == 0 -> vsum (project bounds w) == 1.
Proof.
  intros H. unfold project. cbv zeta. rewrite vsum_vdiv. now field.
Qed.

Lemma project_scaled_box (bounds : Q * Q) (w : list Q) :
  fst bounds <= snd bounds ->
  0 < vsum (clamp_ bounds w) ->
  Forall (fun x => fst bounds / vsum (clamp_ bounds w) <= x
                   /\ x <= snd bounds / vsum (clamp_ bounds w))
         (project bounds w).
Proof.
  intros Hb HS. unfold project. cbv zeta.
  set (S := vsum (clamp_ bounds w)) in *. clearbody S.
  unfold vdiv, clamp_. rewrite map_map. apply Forall_forall.
  intros y Hy. apply in_map_iff in Hy as (x & <- & _).
  destruct (clamp_in_box (fst bounds) (snd bounds) x Hb) as [H1 H2].
  assert (HSinv : 0 < / S) by now apply Qinv_lt_0_compat.
  unfold Qdiv. split; apply Qmult_le_compat_r; auto using Qlt_le_weak.
Qed.

Lemma project_box_unit_sum (bounds : Q * Q) (w : list Q) :
  fst bounds <= snd bounds ->
  vsum (clamp_ bounds w) == 1 ->
  Forall (fun x => fst bounds <= x /\ x <= snd bounds) (project bounds w).
Proof.
  intros Hb HS.
  assert (H0 : 0 < vsum (clamp_ bounds w)) by (rewrite HS; reflexivity).
  pose proof (project_scaled_box bounds w Hb H0) as H.
  eapply Forall_impl; [|exact H]. cbv beta. intros x [H1 H2].
  assert (E : forall a, a / 1 == a) by (intros a; field).
  rewrite HS, E in H1, H2. now split.
Qed.

(** Every routine ends on the projection of the tensor it holds. *)
Lemma optimizer_returns_projection (sqrtQ : Q -> Q)
    (lbfgs lbfgs_wolfe adam :
       nat -> (list Q -> list Q) -> (list Q -> Q) -> list Q -> list Q)
    (N : nat) (bounds : Q * Q) (w : list Q) :
  optimizer_returns sqrtQ lbfgs lbfgs_wolfe adam N bounds w ->
  exists raw, w = project bounds raw.
Proof.
  intros [X method w' H | X max_iter w' H | X c lambda cur _
          | X c lambda cur next _].
  - unfold _optimize_weights in H. apply bind_ok in H as (inv_N & _ & H).
    inversion H. eauto.
  - unfold optimize_minimum_variance_torch in H.
    apply bind_ok in H as (inv_N & _ & H). inversion H. eauto.
  - unfold _solve_single_period. eauto.
  - unfold _solve_with_continuation. eauto.
Qed.

(** C3 (amended). A returned weight vector is the clamped tensor [raw]
    divided by its sum [S]: it sums to 1 when [S] is not 0; for [lo <= hi]
    and [S > 0] its entries lie in [[lo / S, hi / S]], hence in [[lo, hi]]
    when [S = 1]. *)
Theorem returned_weights_sum_and_scaled_box (sqrtQ : Q -> Q)
    (lbfgs lbfgs_wolfe adam :
       nat -> (list Q -> list Q) -> (list Q -> Q) -> list Q -> list Q)
    (N : nat) (bounds : Q * Q) (w : list Q) :
  optimizer_returns sqrtQ lbfgs lbfgs_wolfe adam N bounds w ->
  exists raw,
    w = project bounds raw
    /\ (~ vsum (clamp_ bounds raw) == 0 -> vsum w == 1)
    /\ (fst bounds <= snd bounds -> 0 < vsum (clamp_ bounds raw) ->
        Forall (fun x => fst bounds / vsum (clamp_ bounds raw) <= x
                         /\ x <= snd bounds / vsum (clamp_ bounds raw)) w)
    /\ (fst bounds <= snd bounds -> vsum (clamp_ bounds raw) == 1 ->
        Forall (fun x => fst bounds <= x /\ x <= snd bounds) w).
Proof.
  intros H. apply optimizer_returns_projection in H as (raw & ->).
  exists raw. split; [reflexivity|]. split; [apply project_sum|].
  split; [apply project_scaled_box | apply project_box_unit_sum].
Qed.

Lemma returned_weights_sum_and_scaled_box_witness :
  exists raw,
    _solve_single_period stationary 2 [[0; 0]; [0; 0]] 0.001 1 [1; 0]
                         (0, 0.99)
    = project (0, 0.99) raw
    /\ (~ vsum (clamp_ (0, 0.99) raw) == 0 ->
        vsum (_solve_single_period stationary 2 [[0; 0]; [0; 0]] 0.001 1
                                   [1; 0] (0, 0.99)) == 1)
    /\ (fst (0, 0.99) <= snd (0, 0.99) -> 0 < vsum (clamp_ (0, 0.99) raw) ->
        Forall (fun x => fst (0, 0.99) / vsum (clamp_ (0, 0.99) raw) <= x
                         /\ x <= snd (0, 0.99) / vsum (clamp_ (0, 0.99) raw))
               (_solve_single_period stationary 2 [[0; 0]; [0; 0]] 0.001 1
                                     [1; 0] (0, 0.99)))
    /\ (fst (0, 0.99) <= snd (0, 0.99) -> vsum (clamp_ (0, 0.99) raw) == 1 ->
        Forall (fun x => fst (0, 0.99) <= x /\ x <= snd (0, 0.99))
               (_solve_single_period stationary 2 [[0; 0]; [0; 0]] 0.001 1
                                     [1; 0] (0, 0.99))).
Proof.
  apply (returned_weights_sum_and_scaled_box rounded_sqrt stationary
           stationary stationary 2 (0, 0.99)).
  apply ret_single_period. reflexivity.
Defined.

(** C3 (as stated) fails.  Two assets, zero returns, start [1, 0] and the
    valid box (0, 0.99): clamping gives [0.99, 0], renormalising gives back
    [1, 0], whose first entry exceeds 0.99 + 1e-9. *)
Lemma box_bound_violated_after_renormalisation :
  exists w,
    optimizer_returns rounded_sqrt stationary stationary stationary 2
                      (0, 0.99) w
    /\ w = _solve_single_period stationary 2 [[0; 0]; [0; 0]] 0.001 1 [1; 0]
                                (0, 0.99)
    /\ Forall2 Qeq w [1; 0]
    /\ valid_bounds 2 (0, 0.99)
    /\ ~ spec_weight_invariant (0, 0.99) w.
Proof.
  eexists. split; [apply ret_single_period with (current := [1; 0]);
                   reflexivity|].
  split; [reflexivity|].
  split; [vm_compute; repeat constructor|].
  split.
  - unfold valid_bounds. cbn [fst snd]. repeat split; vm_compute; discriminate.
  - intros [_ Hbox]. vm_compute in Hbox.
    inversion Hbox as [|? ? [_ Hhi] _]; subst. apply Hhi. reflexivity.
Qed.

(** ** What the optimisers check before the descent *)

Lemma py_div_by_positive (x : Q) (n : nat) :
  (1 <= n)%nat ->
  py_div x (inject_Z (Z.of_nat n)) = Ok (x / inject_Z (Z.of_nat n)).
Proof.
  intros Hn. unfold py_div.
  destruct (Qeq_bool (inject_Z (Z.of_nat n)) 0) eqn:E; [|reflexivity].
  apply Qeq_bool_eq in E. unfold Qeq in E. simpl in E. lia.
Qed.

(** With at least one asset [_optimize_weights] raises nothing: the window
    and the bounds are used as they come. *)
Lemma _optimize_weights_returns (sqrtQ : Q -> Q)
    (lbfgs adam : nat -> (list Q -> list Q) -> (list Q -> Q) ->
                  list Q -> list Q)
    (N : nat) (X : list (list Q)) (method : string) (bounds : Q * Q) :
  (1 <= N)%nat ->
  _optimize_weights sqrtQ lbfgs adam N X method bounds
  = Ok (project bounds
          (weights_before_projection sqrtQ lbfgs adam N X method bounds
             (repeat (1 / inject_Z (Z.of_nat N)) N))).
Proof.
  intros HN. unfold _optimize_weights.
  now rewrite (py_div_by_positive 1 N HN).
Qed.

Lemma optimize_minimum_variance_torch_returns
    (lbfgs_wolfe : nat -> (list Q -> list Q) -> (list Q -> Q) ->
                   list Q -> list Q)
    (N : nat) (X : list (list Q)) (bounds : Q * Q) (max_iter : nat) :
  (1 <= N)%nat ->
  optimize_minimum_variance_torch lbfgs_wolfe N X bounds max_iter
  = Ok (project bounds
          (lbfgs_wolfe (max_iter / 20)%nat (project bounds)
             (variance_loss (sample_cov N X))
             (repeat (1 / inject_Z (Z.of_nat N)) N))).
Proof.
  intros HN. unfold optimize_minimum_variance_torch.
  now rewrite (py_div_by_positive 1 N HN).
Qed.

(** C4 (amended). On a window of fewer than two rows (and at least one
    column) nothing is raised: the moments are computed with the divisor
    [T - 1], the descent runs on them and the projected weights are
    returned. *)
Theorem short_window_is_not_rejected (sqrtQ : Q -> Q)
    (lbfgs adam : nat -> (list Q -> list Q) -> (list Q -> Q) ->
                  list Q -> list Q)
    (N : nat) (X : list (list Q)) (method : string) (bounds : Q * Q) :
  (1 <= N)%nat ->
  (List.length X < 2)%nat ->
  returns_with
    (fun w =>
       w = project bounds
             (weights_before_projection sqrtQ lbfgs adam N X method bounds
                (repeat (1 / inject_Z (Z.of_nat N)) N)))
    (_optimize_weights sqrtQ lbfgs adam N X method bounds).
Proof.
  intros HN _. now rewrite _optimize_weights_returns.
Qed.

Lemma short_window_is_not_rejected_witness :
  returns_with
    (fun w =>
       w = project (0, 1)
             (weights_before_projection rounded_sqrt stationary stationary 2
                [[0.01; 0.02]] "equal_weight" (0, 1)
                (repeat (1 / inject_Z (Z.of_nat 2)) 2)))
    (_optimize_weights rounded_sqrt stationary stationary 2 [[0.01; 0.02]]
                       "equal_weight" (0, 1)).
Proof.
  apply (short_window_is_not_rejected rounded_sqrt stationary stationary 2
           [[0.01; 0.02]] "equal_weight" (0, 1)).
  - lia.
  - simpl. lia.
Defined.

(** C4 (as stated) fails: a window of one row is accepted and the
    equal-weight vector comes back. *)
Lemma one_row_window_returns_weights :
  exists w,
    _optimize_weights rounded_sqrt stationary stationary 2 [[0.01; 0.02]]
                      "equal_weight" (0, 1) = Ok w
    /\ Forall2 Qeq w [1 # 2; 1 # 2].
Proof.
  eexists. split; [vm_compute; reflexivity|]. repeat constructor.
Qed.

(** C5 (amended). With bounds that leave the simplex empty (and at least
    one asset) nothing is raised either: the descent is run with the
    projection onto these bounds and its last iterate is projected and
    returned. *)
Theorem infeasible_bounds_are_not_rejected (sqrtQ : Q -> Q)
    (lbfgs lbfgs_wolfe adam :
       nat -> (list Q -> list Q) -> (list Q -> Q) -> list Q -> list Q)
    (N : nat) (X : list (list Q)) (method : string) (bounds : Q * Q)
    (max_iter : nat) :
  (1 <= N)%nat ->
  1 < inject_Z (Z.of_nat N) * fst bounds
  \/ inject_Z (Z.of_nat N) * snd bounds < 1 ->
  returns_with
    (fun w =>
       w = project bounds
             (weights_before_projection sqrtQ lbfgs adam N X method bounds
                (repeat (1 / inject_Z (Z.of_nat N)) N)))
    (_optimize_weights sqrtQ lbfgs adam N X method bounds)
  /\ returns_with
       (fun w =>
          w = project bounds
                (lbfgs_wolfe (max_iter / 20)%nat (project bounds)
                   (variance_loss (sample_cov N X))
                   (repeat (1 / inject_Z (Z.of_nat N)) N)))
       (optimize_minimum_variance_torch lbfgs_wolfe N X bounds max_iter).
Proof.
  intros HN _. split.
  - now rewrite _optimize_weights_returns.
  - now rewrite optimize_minimum_variance_torch_returns.
Qed.

Lemma infeasible_bounds_are_not_rejected_witness :
  returns_with
    (fun w =>
       w = project (0.6, 1)
             (weights_before_projection rounded_sqrt stationary stationary 2
                [[0; 0]; [0; 0]] "minimum_variance" (0.6, 1)
                (repeat (1 / inject_Z (Z.of_nat 2)) 2)))
    (_optimize_weights rounded_sqrt stationary stationary 2 [[0; 0]; [0; 0]]
                       "minimum_variance" (0.6, 1))
  /\ returns_with
       (fun w =>
          w = project (0.6, 1)
                (stationary (1000 / 20)%nat (project (0.6, 1))
                   (variance_loss (sample_cov 2 [[0; 0]; [0; 0]]))
                   (repeat (1 / inject_Z (Z.of_nat 2)) 2)))
       (optimize_minimum_variance_torch stationary 2 [[0; 0]; [0; 0]]
                                        (0.6, 1) 1000).
Proof.
  apply (infeasible_bounds_are_not_rejected rounded_sqrt stationary
           stationary stationary 2 [[0; 0]; [0; 0]] "minimum_variance"
           (0.6, 1) 1000).
  - lia.
  - left. vm_compute. reflexivity.
Defined.

(** C5 (as stated) fails: with two assets and the bounds (0.6, 1), for
    which [N * lo = 1.2 > 1], both optimisers run their descent on a window
    of zero returns and return [0.5, 0.5].  The covariance is zero, so is
    the gradient, and the projection maps [0.5, 0.5] to itself: the early
    exit of the second optimiser changes the number of steps, not the
    result. *)
Lemma infeasible_bounds_return_weights :
  1 < inject_Z (Z.of_nat 2) * fst (0.6, 1)
  /\ (exists w,
        _optimize_weights rounded_sqrt stationary stationary 2
                          [[0; 0]; [0; 0]] "minimum_variance" (0.6, 1) = Ok w
        /\ Forall2 Qeq w [1 # 2; 1 # 2])
  /\ (exists w,
        optimize_minimum_variance_torch stationary 2 [[0; 0]; [0; 0]]
                                        (0.6, 1) 1000 = Ok w
        /\ Forall2 Qeq w [1 # 2; 1 # 2]).
Proof.
  split; [vm_compute; reflexivity|].
  split; eexists; (split; [vm_compute; reflexivity | repeat constructor]).
Qed.

(** ** Objective of an intermediate period *)

Lemma dot_index (u v : list Q) :
  List.length u = List.length v ->
  dot u v = sum_index (List.length u) (fun i => nth i u 0 * nth i v 0).
Proof.
  intros H. unfold dot, vmul, sum_index. now rewrite map2_index.
Qed.

Lemma nth_column (j i : nat) (m : list (list Q)) :
  nth i (column j m) 0 = nth j (nth i m []) 0.
Proof.
  unfold column. revert i. induction m as [|row m IH]; intros [|i]; simpl;
    try (now destruct j); auto.
Qed.

Lemma column_length (j : nat) (m : list (list Q)) :
  List.length (column j m) = List.length m.
Proof. unfold column. apply length_map. Qed.

Lemma map2_map_seq (f : Q -> Q -> Q) (g : nat -> Q) (w : list Q) :
  map2 f (map g (seq 0 (List.length w))) w
  = map (fun j => f (g j) (nth j w 0)) (seq 0 (List.length w)).
Proof.
  transitivity (map2 f (map g (seq 0 (List.length w)))
                     (map (fun t => nth t w 0) (seq 0 (List.length w)))).
  - f_equal. apply list_as_index_map.
  - apply map2_maps.
Qed.

(** [(w @ m) @ w] is the double sum of [w_i * m_ij * w_j]. *)
Lemma quadform_index (w : list Q) (m : list (list Q)) :
  List.length m = List.length w ->
  quadform w m
  == sum_index (List.length w) (fun i =>
       sum_index (List.length w) (fun j =>
         nth i w 0 * nth j (nth i m []) 0 * nth j w 0)).
Proof.
  intros Hm. unfold quadform. unfold dot at 1. unfold vecmat, vmul.
  rewrite map2_map_seq.
  fold (sum_index (List.length w)
          (fun j => dot w (column j m) * nth j w 0)).
  transitivity
    (sum_index (List.length w) (fun j =>
       sum_index (List.length w) (fun i =>
         nth i w 0 * nth j (nth i m []) 0 * nth j w 0))).
  - apply sum_index_ext. intros j _.
    rewrite dot_index by (now rewrite column_length).
    unfold sum_index. rewrite <- vsum_map_mult_r.
    apply vsum_ext. intros i _. now rewrite nth_column.
  - unfold sum_index. apply vsum_swap.
Qed.

Lemma mean_returns_length (N : nat) (X : list (list Q)) :
  List.length (mean_returns N X) = N.
Proof. unfold mean_returns, mean_dim0. now rewrite length_map, length_seq. Qed.

Lemma cov_length (N : nat) (X : list (list Q)) : List.length (cov N X) = N.
Proof. unfold cov, sample_cov. now rewrite length_map, length_seq. Qed.

Lemma immediate_utility_spec (N : nat) (X : list (list Q)) (lambda : Q)
    (w : list Q) :
  List.length w = N ->
  immediate_utility N X lambda w
  == spec_immediate_utility N (mean_returns N X) (cov N X) lambda w.
Proof.
  intros Hw. unfold immediate_utility, spec_immediate_utility.
  rewrite dot_index by (now rewrite mean_returns_length).
  rewrite quadform_index by (now rewrite cov_length).
  rewrite Hw. reflexivity.
Qed.

Lemma tc_cost_spec (N : nat) (c : Q) (ref w : list Q) :
  List.length w = N -> List.length ref = N ->
  tc_cost c ref w == spec_transaction_cost N c ref w.
Proof.
  intros Hw Hr. unfold tc_cost, spec_transaction_cost, sum_index, vabs, vsub.
  rewrite map2_index by congruence. rewrite map_map, Hw. ring.
Qed.



(** * Further properties of the code *)

(** ** Rebalance policy *)

Lemma Qgtb_true_iff (x y : Q) : Qgtb x y = true <-> y < x.
Proof.
  unfold Qgtb. rewrite negb_true_iff. split.
  - intros H. apply Qnot_le_lt. intros Hle.
    apply Qle_bool_iff in Hle. congruence.
  - intros H. destruct (Qle_bool x y) eqn:E; [|reflexivity].
    apply Qle_bool_iff in E. exfalso. exact (Qlt_not_le _ _ H E).
Qed.

Lemma Qgtb_false_iff (x y : Q) : Qgtb x y = false <-> x <= y.
Proof.
  unfold Qgtb. rewrite negb_false_iff. apply Qle_bool_iff.
Qed.

Lemma fold_max_lt_iff (c : Q) (r : list Q) (x : Q) :
  c < fold_left Qmax r x <-> c < x \/ Exists (fun d => c < d) r.
Proof.
  revert x. induction r as [|a r IH]; intros x; simpl.
  - split; [auto | intros [H|H]; [exact H | inversion H]].
  - rewrite IH, Q.max_lt_iff, Exists_cons. tauto.
Qed.

Lemma vmax_gt_iff (c : Q) (v : list Q) (m : Q) :
  vmax v = Ok m -> (c < m <-> Exists (fun d => c < d) v).
Proof.
  destruct v as [|x r]; [discriminate|]. simpl. intros H.
  inversion H; subst m. rewrite fold_max_lt_iff, Exists_cons. tauto.
Qed.

(** X1. THRESHOLD answers yes exactly when the weight of some asset is further
    from its target than the threshold; it raises on empty tensors and
    looks at neither index. *)
Theorem threshold_policy_fires_on_some_asset (current target : list Q)
    (i j : Z) (threshold : Q) :
  current <> [] ->
  List.length current = List.length target ->
  exists b,
    should_rebalance current target THRESHOLD i j threshold = Ok b
    /\ (b = true <->
        exists k, (k < List.length current)%nat
                  /\ threshold < Qabs (nth k current 0 - nth k target 0))
    /\ should_rebalance [] [] THRESHOLD i j threshold = Raise RuntimeError.
Proof.
  intros Hne Hlen. unfold should_rebalance.
  assert (E : vabs (vsub current target)
              = map (fun k => Qabs (nth k current 0 - nth k target 0))
                    (seq 0 (List.length current))).
  { unfold vabs, vsub. now rewrite map2_index, map_map. }
  destruct (vmax (vabs (vsub current target))) as [m|e] eqn:Hm.
  - exists (Qgtb m threshold). split; [reflexivity|]. split; [|reflexivity].
    rewrite Qgtb_true_iff, (vmax_gt_iff _ _ _ Hm), E, Exists_exists.
    split.
    + intros (d & Hd & Hlt). apply in_map_iff in Hd as (k & <- & Hk).
      apply in_seq in Hk. exists k. split; [lia | exact Hlt].
    + intros (k & Hk & Hlt). eexists. split; [|exact Hlt].
      apply in_map_iff. exists k. split; [reflexivity|].
      apply in_seq. lia.
  - exfalso. rewrite E in Hm. destruct current; [congruence|].
    discriminate Hm.
Qed.

Lemma threshold_policy_fires_on_some_asset_witness :
  exists b,
    should_rebalance [0.7; 0.3] [0.5; 0.5] THRESHOLD 9 4 0.05 = Ok b
    /\ (b = true <->
        exists k, (k < List.length [0.7; 0.3]%Q)%nat
                  /\ 0.05 < Qabs (nth k [0.7; 0.3] 0 - nth k [0.5; 0.5] 0))
    /\ should_rebalance [] [] THRESHOLD 9 4 0.05 = Raise RuntimeError.
Proof.
  apply (threshold_policy_fires_on_some_asset [0.7; 0.3] [0.5; 0.5] 9 4 0.05).
  - discriminate.
  - reflexivity.
Defined.

Lemma fold_max_le (c : Q) (r : list Q) (x : Q) :
  x <= c -> Forall (fun d => d <= c) r -> fold_left Qmax r x <= c.
Proof.
  revert x. induction r as [|a r IH]; intros x Hx Hr; simpl; [exact Hx|].
  inversion Hr; subst. apply IH; [|assumption]. now apply Q.max_lub.
Qed.

Lemma unit_weights_distance (a b : Q) :
  0 <= a /\ a <= 1 -> 0 <= b /\ b <= 1 -> Qabs (a - b) <= 1.
Proof.
  intros [Ha0 Ha1] [Hb0 Hb1]. apply Qabs_Qle_condition. split; lra.
Qed.

Lemma unit_weights_drift (u v : list Q) :
  Forall (fun x => 0 <= x /\ x <= 1) u ->
  Forall (fun x => 0 <= x /\ x <= 1) v ->
  Forall (fun d => d <= 1) (vabs (vsub u v)).
Proof.
  intros Hu. revert v. induction Hu as [|a u Ha Hu IH]; intros v Hv.
  - constructor.
  - destruct Hv as [|b v Hb Hv]; [constructor|].
    change (vabs (vsub (a :: u) (b :: v)))
      with (Qabs (a - b) :: vabs (vsub u v)).
    constructor; [now apply unit_weights_distance | now apply IH].
Qed.

(** X2. For two weight vectors over the same non-empty set of assets, with
    every weight in [[0, 1]], a threshold of 1 or more is never exceeded:
    THRESHOLD answers no.  (On tensors of different sizes the subtraction
    of fin.py:275 raises; the hypothesis on the lengths excludes them.) *)
Theorem threshold_of_one_never_fires (current target : list Q) (i j : Z)
    (threshold : Q) :
  List.length current = List.length target ->
  Forall (fun x => 0 <= x /\ x <= 1) current ->
  Forall (fun x => 0 <= x /\ x <= 1) target ->
  current <> [] -> target <> [] ->
  1 <= threshold ->
  should_rebalance current target THRESHOLD i j threshold = Ok false.
Proof.
  intros _ Hc Ht Hc0 Ht0 Hthr. unfold should_rebalance.
  pose proof (unit_weights_drift current target Hc Ht) as Hd.
  destruct current as [|a u]; [congruence|].
  destruct target as [|b v]; [congruence|].
  change (vabs (vsub (a :: u) (b :: v)))
    with (Qabs (a - b) :: vabs (vsub u v)) in *.
  cbn [vmax bind]. f_equal. apply Qgtb_false_iff.
  inversion Hd; subst.
  eapply Qle_trans; [apply fold_max_le; eassumption | exact Hthr].
Qed.

Lemma threshold_of_one_never_fires_witness :
  should_rebalance [1; 0] [0; 1] THRESHOLD 30 0 1 = Ok false.
Proof.
  apply (threshold_of_one_never_fires [1; 0] [0; 1] 30 0 1).
  - reflexivity.
  - repeat constructor; vm_compute; discriminate.
  - repeat constructor; vm_compute; discriminate.
  - discriminate.
  - discriminate.
  - vm_compute. discriminate.
Defined.

(** ** Transaction cost model: all four branches *)

Lemma vsum_Forall2 (u v : list Q) : Forall2 Qeq u v -> vsum u == vsum v.
Proof.
  induction 1 as [|a b u v Hab _ IH]; simpl; [reflexivity|].
  now rewrite Hab, IH.
Qed.

Lemma map_Forall2 (f : Q -> Q) (u v : list Q) :
  Proper (Qeq ==> Qeq) f -> Forall2 Qeq u v -> Forall2 Qeq (map f u) (map f v).
Proof.
  intros Hf. induction 1 as [|a b u v Hab _ IH]; simpl; constructor; auto.
Qed.

Lemma vscale_Forall2 (k : Q) (u v : list Q) :
  Forall2 Qeq u v -> Forall2 Qeq (vscale u k) (vscale v k).
Proof.
  apply map_Forall2. intros x y H. now rewrite H.
Qed.

Lemma Qgtb_proper (c x y : Q) : x == y -> Qgtb x c = Qgtb y c.
Proof.
  intros H. destruct (Qgtb y c) eqn:E.
  - apply Qgtb_true_iff. apply Qgtb_true_iff in E. now rewrite H.
  - apply Qgtb_false_iff. apply Qgtb_false_iff in E. now rewrite H.
Qed.

Lemma count_gt_Forall2 (c : Q) (u v : list Q) :
  Forall2 Qeq u v ->
  List.length (filter (fun d => Qgtb d c) u)
  = List.length (filter (fun d => Qgtb d c) v).
Proof.
  induction 1 as [|a b u v Hab _ IH]; simpl; [reflexivity|].
  rewrite (Qgtb_proper c a b Hab). destruct (Qgtb b c); simpl; congruence.
Qed.

Lemma abs_diff_sym (u v : list Q) :
  Forall2 Qeq (vabs (vsub u v)) (vabs (vsub v u)).
Proof.
  revert v. induction u as [|a u IH]; intros [|b v]; try constructor.
  - change (Qabs (a - b) == Qabs (b - a)). now rewrite Qabs_Qminus.
  - apply IH.
Qed.

(** X3. The cost of moving from [old] to [new] is the cost of moving back,
    under each of the four models. *)
Theorem transaction_cost_is_symmetric (sqrtQ : Q -> Q) (old new : list Q)
    (V : Q) (cost_model : TransactionCostModel)
    (cost_rate fixed_cost market_impact_coef : Q) :
  Proper (Qeq ==> Qeq) sqrtQ ->
  compute_transaction_costs sqrtQ old new V cost_model cost_rate fixed_cost
                            market_impact_coef
  == compute_transaction_costs sqrtQ new old V cost_model cost_rate fixed_cost
                               market_impact_coef.
Proof.
  intros Hs. unfold compute_transaction_costs.
  pose proof (abs_diff_sym new old) as H.
  pose proof (vscale_Forall2 V _ _ H) as HV.
  destruct cost_model.
  - now rewrite (vsum_Forall2 _ _ HV).
  - rewrite (vsum_Forall2 _ _ HV), (count_gt_Forall2 _ _ _ H). reflexivity.
  - rewrite (vsum_Forall2 _ _ HV).
    rewrite (vsum_Forall2 _ _ (map_Forall2 sqrtQ _ _ Hs HV)). reflexivity.
  - reflexivity.
Qed.

Lemma transaction_cost_is_symmetric_witness :
  compute_transaction_costs (fun x => rounded_sqrt (Qred x)) [0.5; 0.5]
                            [0.7; 0.3] 1000 MARKET_IMPACT 0.01 2 0.1
  == compute_transaction_costs (fun x => rounded_sqrt (Qred x)) [0.7; 0.3]
                               [0.5; 0.5] 1000 MARKET_IMPACT 0.01 2 0.1.
Proof.
  apply (transaction_cost_is_symmetric (fun x => rounded_sqrt (Qred x))
           [0.5; 0.5] [0.7; 0.3] 1000 MARKET_IMPACT 0.01 2 0.1).
  intros x y H. now rewrite (Qred_complete x y H).
Defined.

Lemma vsum_nonneg (v : list Q) : Forall (fun x => 0 <= x) v -> 0 <= vsum v.
Proof.
  induction 1 as [|x v Hx _ IH]; simpl; [apply Qle_refl|].
  rewrite <- (Qplus_0_l 0). now apply Qplus_le_compat.
Qed.

Lemma trade_amounts_nonneg (old new : list Q) (V : Q) :
  0 <= V -> Forall (fun x => 0 <= x) (vscale (vabs (vsub new old)) V).
Proof.
  intros HV. unfold vscale, vabs. rewrite map_map. apply Forall_forall.
  intros y Hy. apply in_map_iff in Hy as (x & <- & _).
  apply Qmult_le_0_compat; [apply Qabs_nonneg | exact HV].
Qed.

Lemma rounded_sqrt_nonneg (x : Q) : 0 <= rounded_sqrt x.
Proof.
  unfold rounded_sqrt. apply Qle_shift_div_l; [reflexivity|].
  rewrite Qmult_0_l. unfold Qle. simpl. rewrite Z.mul_1_r.
  apply Z.sqrt_nonneg.
Qed.

(** X4. For a portfolio value, a rate, a fee and an impact coefficient that are
    not negative, no model returns a negative cost. *)
Theorem transaction_cost_is_nonnegative (sqrtQ : Q -> Q) (old new : list Q)
    (V : Q) (cost_model : TransactionCostModel)
    (cost_rate fixed_cost market_impact_coef : Q) :
  (forall x, 0 <= sqrtQ x) ->
  0 <= V -> 0 <= cost_rate -> 0 <= fixed_cost -> 0 <= market_impact_coef ->
  0 <= compute_transaction_costs sqrtQ old new V cost_model cost_rate
                                 fixed_cost market_impact_coef.
Proof.
  intros Hs HV Hr Hf Hm. unfold compute_transaction_costs.
  pose proof (vsum_nonneg _ (trade_amounts_nonneg old new V HV)) as Hsum.
  assert (Hp : 0 <= vsum (vscale (vabs (vsub new old)) V) * cost_rate)
    by now apply Qmult_le_0_compat.
  destruct cost_model.
  - exact Hp.
  - rewrite <- (Qplus_0_l 0). apply Qplus_le_compat; [exact Hp|].
    apply Qmult_le_0_compat; [|exact Hf].
    unfold Qle. simpl. lia.
  - rewrite <- (Qplus_0_l 0). apply Qplus_le_compat; [exact Hp|].
    apply Qmult_le_0_compat; [exact Hm|].
    apply vsum_nonneg, Forall_forall. intros y Hy.
    apply in_map_iff in Hy as (x & <- & _). apply Hs.
  - apply Qle_refl.
Qed.

Lemma transaction_cost_is_nonnegative_witness :
  0 <= compute_transaction_costs rounded_sqrt [0.5; 0.5] [0.7; 0.3] 1000
                                 MARKET_IMPACT 0.01 2 0.1.
Proof.
  apply (transaction_cost_is_nonnegative rounded_sqrt [0.5; 0.5] [0.7; 0.3]
           1000 MARKET_IMPACT 0.01 2 0.1).
  - exact rounded_sqrt_nonneg.
  - vm_compute. discriminate.
  - vm_compute. discriminate.
  - vm_compute. discriminate.
  - vm_compute. discriminate.
Defined.

Lemma filter_none (A : Type) (f : A -> bool) (l : list A) :
  Forall (fun a => f a = false) l -> filter f l = [].
Proof.
  induction 1 as [|a l Ha _ IH]; simpl; [reflexivity|]. now rewrite Ha.
Qed.

(** X5. A rebalance in which no weight moves by more than 1e-6 counts no trade:
    FIXED_PLUS_PROPORTIONAL charges the proportional part only, whatever the
    fee. *)
Theorem no_fixed_fee_below_trade_threshold (sqrtQ : Q -> Q)
    (old new : list Q) (V cost_rate fixed_cost market_impact_coef : Q) :
  List.length old = List.length new ->
  (forall k, (k < List.length old)%nat ->
             Qabs (nth k new 0 - nth k old 0) <= 1e-6) ->
  compute_transaction_costs sqrtQ old new V FIXED_PLUS_PROPORTIONAL cost_rate
                            fixed_cost market_impact_coef
  == compute_transaction_costs sqrtQ old new V PROPORTIONAL cost_rate
                               fixed_cost market_impact_coef.
Proof.
  intros Hlen Hsmall. unfold compute_transaction_costs.
  rewrite filter_none; [simpl; ring|].
  unfold vabs, vsub. rewrite map2_index by (symmetry; exact Hlen).
  rewrite map_map. apply Forall_forall. intros d Hd.
  apply in_map_iff in Hd as (k & <- & Hk). apply in_seq in Hk.
  apply Qgtb_false_iff, Hsmall. lia.
Qed.

Lemma no_fixed_fee_below_trade_threshold_witness :
  compute_transaction_costs rounded_sqrt [0.5; 0.5] [0.5000005; 0.4999995]
                            1000 FIXED_PLUS_PROPORTIONAL 0.01 25 0
  == compute_transaction_costs rounded_sqrt [0.5; 0.5] [0.5000005; 0.4999995]
                               1000 PROPORTIONAL 0.01 25 0.
Proof.
  apply (no_fixed_fee_below_trade_threshold rounded_sqrt [0.5; 0.5]
           [0.5000005; 0.4999995] 1000 0.01 25 0).
  - reflexivity.
  - intros [|[|k]] Hk; simpl in Hk; try lia; vm_compute; discriminate.
Defined.

(** X6. Moving from a weight vector to itself costs nothing under any model,
    for a square root that maps 0 to 0. *)
Theorem no_trade_costs_nothing (sqrtQ : Q -> Q) (w : list Q) (V : Q)
    (cost_model : TransactionCostModel)
    (cost_rate fixed_cost market_impact_coef : Q) :
  Proper (Qeq ==> Qeq) sqrtQ ->
  sqrtQ 0 == 0 ->
  compute_transaction_costs sqrtQ w w V cost_model cost_rate fixed_cost
                            market_impact_coef == 0.
Proof.
  intros Hs H0. unfold compute_transaction_costs.
  pose proof (abs_diff_self w) as Hz.
  assert (HzV : Forall (fun d => d == 0) (vscale (vabs (vsub w w)) V)).
  { unfold vscale. apply Forall_forall. intros y Hy.
    apply in_map_iff in Hy as (x & <- & Hx).
    rewrite Forall_forall in Hz. rewrite (Hz x Hx). ring. }
  destruct cost_model.
  - rewrite (vsum_all_zero _ HzV). ring.
  - rewrite (vsum_all_zero _ HzV), filter_none; [simpl; ring|].
    eapply Forall_impl; [|exact Hz]. cbv beta. intros d Hd.
    apply Qgtb_false_iff. rewrite Hd. vm_compute. discriminate.
  - rewrite (vsum_all_zero _ HzV), vsum_all_zero; [ring|].
    apply Forall_forall. intros y Hy.
    apply in_map_iff in Hy as (x & <- & Hx).
    rewrite Forall_forall in HzV. now rewrite (HzV x Hx).
  - reflexivity.
Qed.

Lemma no_trade_costs_nothing_witness :
  compute_transaction_costs (fun x => rounded_sqrt (Qred x)) [0.7; 0.3]
                            [0.7; 0.3] 1000 MARKET_IMPACT 0.01 2 0.1 == 0.
Proof.
  apply (no_trade_costs_nothing (fun x => rounded_sqrt (Qred x)) [0.7; 0.3]
           1000 MARKET_IMPACT 0.01 2 0.1).
  - intros x y H. now rewrite (Qred_complete x y H).
  - vm_compute. reflexivity.
Defined.

(** ** When the walk-forward loop rebalances *)

Lemma schedule_arith (mh k a : nat) :
  (0 < k)%nat -> (mh <= a)%nat ->
  (k <=? a - (mh + k * ((a - 1 - mh) / k)))%nat = on_schedule mh k a
  /\ (if (k <=? a - (mh + k * ((a - 1 - mh) / k)))%nat then a
      else (mh + k * ((a - 1 - mh) / k))%nat)
     = (mh + k * ((a - mh) / k))%nat.
Proof.
  intros Hk Ha. unfold on_schedule.
  destruct (Nat.eq_dec a mh) as [->|Hne].
  - replace (mh - 1 - mh)%nat with 0%nat by lia.
    rewrite Nat.sub_diag, Nat.Div0.div_0_l, Nat.mul_0_r, Nat.add_0_r.
    rewrite Nat.sub_diag, Nat.ltb_irrefl.
    destruct (Nat.leb_spec k 0); [lia|]. split; [reflexivity | lia].
  - set (d := (a - mh)%nat). assert (Hd : (1 <= d)%nat) by (unfold d; lia).
    replace (a - 1 - mh)%nat with (d - 1)%nat by (unfold d; lia).
    pose proof (Nat.div_mod_eq (d - 1) k) as Hdm.
    pose proof (Nat.mod_upper_bound (d - 1) k ltac:(lia)) as Hr.
    set (q := ((d - 1) / k)%nat) in *. set (r := ((d - 1) mod k)%nat) in *.
    assert (Ea : a = (mh + d)%nat) by (unfold d; lia).
    replace (a - (mh + k * q))%nat with (r + 1)%nat by lia.
    destruct (Nat.ltb_spec mh a); [|lia]. cbn [andb].
    destruct (Nat.eq_dec (r + 1) k) as [Hfull|Hpart].
    + assert (Hdk : d = (k * (q + 1))%nat) by lia.
      assert (Hmod : (d mod k = 0)%nat).
      { symmetry. apply (Nat.mod_unique d k (q + 1)); lia. }
      assert (Hdiv : (d / k = q + 1)%nat).
      { symmetry. apply (Nat.div_unique d k (q + 1) 0); lia. }
      rewrite Hmod, Hdiv. destruct (Nat.leb_spec k (r + 1)); [|lia].
      split; [reflexivity | lia].
    + assert (Hmod : (d mod k = r + 1)%nat).
      { symmetry. apply (Nat.mod_unique d k q); lia. }
      assert (Hdiv : (d / k = q)%nat).
      { symmetry. apply (Nat.div_unique d k q (r + 1)); lia. }
      rewrite Hmod, Hdiv. destruct (Nat.leb_spec k (r + 1)); [lia|].
      destruct (Nat.eqb_spec (r + 1) 0); [lia|]. split; reflexivity.
Qed.

Section RebalanceSchedule.

Variable sqrtQ : Q -> Q.
Variables lbfgs adam : nat -> (list Q -> list Q) -> (list Q -> Q) ->
                       list Q -> list Q.
Variable N : nat.
Variable returns : list (list Q).
Variable initial_capital : Q.
Variable optimization_method : string.
Variable lookback_window : nat.
Variable rebalance_freq : RebalanceFrequency.
Variable rebalance_threshold : Q.
Variable cost_model : TransactionCostModel.
Variable cost_rate : Q.
Variable min_history : nat.
Variable bounds : Q * Q.

Let rebal :=
  rebalance sqrtQ lbfgs adam N returns optimization_method lookback_window
            cost_model cost_rate bounds.

Let step :=
  backtest_step sqrtQ lbfgs adam N returns optimization_method
                lookback_window rebalance_freq rebalance_threshold
                cost_model cost_rate bounds.

(** A turn of the loop: the test, the rebalance block when the test says
    so, then the return of the period. *)
Lemma step_cases (t : nat) (s s' : LoopState) :
  step t s = Ok s' ->
  exists go s1,
    rebalance_test rebalance_freq rebalance_threshold t s = Ok go
    /\ (if go : bool then rebal t s = Ok s1 else s1 = s)
    /\ s' = realize returns t s1.
Proof.
  unfold step, backtest_step. intros H.
  apply bind_ok in H as (go & Hgo & H).
  apply bind_ok in H as (s1 & H1 & H).
  exists go, s1. split; [exact Hgo|]. split; [|now inversion H].
  destruct go; [exact H1 | now inversion H1].
Qed.

Lemma rebalance_marks (t : nat) (s s1 : LoopState) :
  rebal t s = Ok s1 ->
  rebalance_dates s1 = rebalance_dates s ++ [t]
  /\ last_rebalance_idx s1 = t
  /\ portfolio_returns s1 = portfolio_returns s.
Proof.
  unfold rebal, rebalance. intros H. apply bind_ok in H as (w & _ & H).
  now inversion H.
Qed.

(** What a turn does to the list of rebalance dates and to the index of
    the last rebalance *)
Lemma step_marks (t : nat) (s s' : LoopState) (go : bool) :
  rebalance_test rebalance_freq rebalance_threshold t s = Ok go ->
  step t s = Ok s' ->
  rebalance_dates s' = rebalance_dates s ++ (if go then [t] else [])
  /\ last_rebalance_idx s' = if go then t else last_rebalance_idx s.
Proof.
  intros Hgo Hstep. apply step_cases in Hstep as (go' & s1 & Hgo' & H1 & ->).
  rewrite Hgo in Hgo'. inversion Hgo'; subst go'. cbn [realize
    rebalance_dates last_rebalance_idx].
  destruct go.
  - apply rebalance_marks in H1 as (H1 & H2 & _). now rewrite H1, H2.
  - subst s1. now rewrite app_nil_r.
Qed.

Lemma daily_loop (ts : list nat) (s s' : LoopState) :
  rebalance_freq = DAILY ->
  for_each ts step s = Ok s' ->
  rebalance_dates s' = rebalance_dates s ++ ts.
Proof.
  intros Hf. revert s. induction ts as [|t ts IH]; intros s H; simpl in H.
  - inversion H. now rewrite app_nil_r.
  - apply bind_ok in H as (s1 & H1 & H).
    apply IH in H. rewrite H.
    assert (Hgo : rebalance_test rebalance_freq rebalance_threshold t s
                  = Ok true) by (now rewrite Hf).
    destruct (step_marks t s s1 true Hgo H1) as [E _].
    now rewrite E, <- app_assoc.
Qed.

Lemma calendar_test (k t : nat) (s : LoopState) :
  calendar_period rebalance_freq = Some k ->
  rebalance_test rebalance_freq rebalance_threshold t s
  = Ok (k <=? t - last_rebalance_idx s)%nat.
Proof.
  intros Hk. unfold rebalance_test, should_rebalance.
  destruct rebalance_freq; inversion Hk; subst k; f_equal;
    match goal with
    | |- (?a <=? ?b)%Z = (?c <=? ?d)%nat =>
        destruct (Z.leb_spec a b); destruct (Nat.leb_spec c d);
          try reflexivity; lia
    end.
Qed.

Lemma calendar_period_positive (k : nat) :
  calendar_period rebalance_freq = Some k -> (0 < k)%nat.
Proof. destruct rebalance_freq; intros H; inversion H; lia. Qed.

Lemma calendar_loop (k n : nat) :
  calendar_period rebalance_freq = Some k ->
  forall (a : nat) (s s' : LoopState),
    (min_history <= a)%nat ->
    last_rebalance_idx s
    = (min_history + k * ((a - 1 - min_history) / k))%nat ->
    for_each (seq a n) step s = Ok s' ->
    rebalance_dates s'
    = rebalance_dates s ++ filter (on_schedule min_history k) (seq a n).
Proof.
  intros Hk. pose proof (calendar_period_positive k Hk) as Hpos.
  induction n as [|n IH]; intros a s s' Ha Hlast H; simpl in H.
  - inversion H. now rewrite app_nil_r.
  - apply bind_ok in H as (s1 & H1 & H).
    pose proof (calendar_test k a s Hk) as Hgo.
    destruct (step_marks a s s1 _ Hgo H1) as [Ed El].
    destruct (schedule_arith min_history k a Hpos Ha) as [Eb Enext].
    rewrite Hlast in Ed, El. rewrite Eb in Ed. rewrite Enext in El.
    apply (IH (S a)) in H; [|lia|].
    + rewrite H, Ed. cbn [seq filter].
      destruct (on_schedule min_history k a); cbn [app];
        now rewrite <- app_assoc.
    + rewrite El. do 3 f_equal. lia.
Qed.

Lemma idle_loop (ts : list nat) (s s' : LoopState) :
  (forall t u, rebalance_test rebalance_freq rebalance_threshold t u
               = Ok true -> False) ->
  for_each ts step s = Ok s' ->
  rebalance_dates s' = rebalance_dates s
  /\ transaction_costs s' = transaction_costs s
  /\ turnover s' = turnover s.
Proof.
  intros Hno. revert s. induction ts as [|t ts IH]; intros s H; simpl in H.
  - now inversion H.
  - apply bind_ok in H as (s1 & H1 & H). apply IH in H as (E1 & E2 & E3).
    apply step_cases in H1 as (go & s0 & Hgo & H0 & ->).
    destruct go; [exfalso; eapply Hno; exact Hgo|]. subst s0.
    now rewrite E1, E2, E3.
Qed.

End RebalanceSchedule.

Lemma walk_cases (sqrtQ : Q -> Q)
    (lbfgs adam : nat -> (list Q -> list Q) -> (list Q -> Q) ->
                  list Q -> list Q)
    (N : nat) (returns : list (list Q)) (initial_capital : Q)
    (optimization_method : string) (lookback_window : nat)
    (rebalance_freq : RebalanceFrequency) (rebalance_threshold : Q)
    (cost_model : TransactionCostModel) (cost_rate : Q) (min_history : nat)
    (bounds : Q * Q) (s : LoopState) :
  walk_forward sqrtQ lbfgs adam N returns initial_capital
               optimization_method lookback_window rebalance_freq
               rebalance_threshold cost_model cost_rate min_history bounds
  = Ok s ->
  exists s0,
    initial_state N returns initial_capital min_history = Ok s0
    /\ for_each (range min_history (List.length returns))
         (backtest_step sqrtQ lbfgs adam N returns optimization_method
            lookback_window rebalance_freq rebalance_threshold cost_model
            cost_rate bounds) s0 = Ok s.
Proof.
  unfold walk_forward. intros H.
  apply bind_ok in H as (s0 & H0 & H). eauto.
Qed.

Lemma initial_state_fields (N : nat) (returns : list (list Q))
    (initial_capital : Q) (min_history : nat) (s0 : LoopState) :
  initial_state N returns initial_capital min_history = Ok s0 ->
  rebalance_dates s0 = []
  /\ last_rebalance_idx s0 = min_history
  /\ transaction_costs s0 = zeros (List.length returns)
  /\ turnover s0 = zeros (List.length returns)
  /\ portfolio_returns s0 = zeros (List.length returns)
  /\ returns <> [].
Proof.
  unfold initial_state. destruct returns as [|r rest]; [discriminate|].
  intros H. inversion H. repeat split. discriminate.
Qed.

Lemma run_backtest_cases (sqrtQ : Q -> Q)
    (lbfgs adam : nat -> (list Q -> list Q) -> (list Q -> Q) ->
                  list Q -> list Q)
    (N : nat) (returns : list (list Q)) (initial_capital : Q)
    (optimization_method : string) (lookback_window : nat)
    (rebalance_freq : RebalanceFrequency) (rebalance_threshold : Q)
    (cost_model : TransactionCostModel) (cost_rate : Q) (min_history : nat)
    (bounds : Q * Q) (res : BacktestResult) :
  run_backtest sqrtQ lbfgs adam N returns initial_capital optimization_method
               lookback_window rebalance_freq rebalance_threshold cost_model
               cost_rate min_history bounds = Ok res ->
  exists s m,
    walk_forward sqrtQ lbfgs adam N returns initial_capital
                 optimization_method lookback_window rebalance_freq
                 rebalance_threshold cost_model cost_rate min_history bounds
    = Ok s
    /\ _compute_performance_metrics initial_capital (portfolio_values s)
                                    (portfolio_returns s) = Ok m
    /\ res = {| res_portfolio_values := portfolio_values s;
                res_portfolio_returns := portfolio_returns s;
                res_weights_history := weights_history s;
                res_rebalance_dates := rebalance_dates s;
                res_transaction_costs := transaction_costs s;
                res_turnover := turnover s;
                res_metrics := m |}.
Proof.
  unfold run_backtest. intros H.
  apply bind_ok in H as (s & Hs & H). apply bind_ok in H as (m & Hm & H).
  exists s, m. repeat split; try assumption. now inversion H.
Qed.

(** X7. Under DAILY every simulated period is a rebalance: the dates of a
    returned report are [min_history, ..., T - 1]. *)
Theorem daily_rebalances_every_period (sqrtQ : Q -> Q)
    (lbfgs adam : nat -> (list Q -> list Q) -> (list Q -> Q) ->
                  list Q -> list Q)
    (N : nat) (returns : list (list Q)) (initial_capital : Q)
    (optimization_method : string) (lookback_window : nat)
    (rebalance_threshold : Q) (cost_model : TransactionCostModel)
    (cost_rate : Q) (min_history : nat) (bounds : Q * Q)
    (res : BacktestResult) :
  run_backtest sqrtQ lbfgs adam N returns initial_capital optimization_method
               lookback_window DAILY rebalance_threshold cost_model
               cost_rate min_history bounds = Ok res ->
  res_rebalance_dates res = range min_history (List.length returns).
Proof.
  intros H. apply run_backtest_cases in H as (s & m & Hw & _ & ->).
  cbn [res_rebalance_dates].
  apply walk_cases in Hw as (s0 & H0 & Hloop).
  apply initial_state_fields in H0 as (E & _).
  apply daily_loop in Hloop; [now rewrite Hloop, E | reflexivity].
Qed.

(** X8. Under WEEKLY, MONTHLY, QUARTERLY and ANNUALLY, with [k] = 5, 21, 63
    and 252, the dates of a returned report are the periods
    [min_history + k], [min_history + 2k], ... below [T]: the first
    simulated period is never a rebalance. *)
Theorem calendar_rebalances_on_schedule (sqrtQ : Q -> Q)
    (lbfgs adam : nat -> (list Q -> list Q) -> (list Q -> Q) ->
                  list Q -> list Q)
    (N : nat) (returns : list (list Q)) (initial_capital : Q)
    (optimization_method : string) (lookback_window : nat)
    (rebalance_freq : RebalanceFrequency) (rebalance_threshold : Q)
    (cost_model : TransactionCostModel) (cost_rate : Q) (min_history : nat)
    (bounds : Q * Q) (res : BacktestResult) (k : nat) :
  calendar_period rebalance_freq = Some k ->
  run_backtest sqrtQ lbfgs adam N returns initial_capital optimization_method
               lookback_window rebalance_freq rebalance_threshold cost_model
               cost_rate min_history bounds = Ok res ->
  res_rebalance_dates res
  = filter (on_schedule min_history k)
           (range min_history (List.length returns)).
Proof.
  intros Hk H. apply run_backtest_cases in H as (s & m & Hw & _ & ->).
  cbn [res_rebalance_dates].
  apply walk_cases in Hw as (s0 & H0 & Hloop).
  apply initial_state_fields in H0 as (E & El & _).
  unfold range in *.
  apply (calendar_loop sqrtQ lbfgs adam N returns optimization_method
           lookback_window rebalance_freq rebalance_threshold cost_model
           cost_rate min_history bounds k _ Hk) in Hloop.
  - now rewrite Hloop, E.
  - lia.
  - rewrite El. replace (min_history - 1 - min_history)%nat with 0%nat by lia.
    rewrite Nat.Div0.div_0_l. lia.
Qed.

(** X9. Under THRESHOLD with a threshold that is not negative a returned
    report has no rebalance date, no transaction cost and no turnover. *)
Theorem threshold_run_trades_nothing (sqrtQ : Q -> Q)
    (lbfgs adam : nat -> (list Q -> list Q) -> (list Q -> Q) ->
                  list Q -> list Q)
    (N : nat) (returns : list (list Q)) (initial_capital : Q)
    (optimization_method : string) (lookback_window : nat)
    (rebalance_threshold : Q) (cost_model : TransactionCostModel)
    (cost_rate : Q) (min_history : nat) (bounds : Q * Q)
    (res : BacktestResult) :
  0 <= rebalance_threshold ->
  run_backtest sqrtQ lbfgs adam N returns initial_capital optimization_method
               lookback_window THRESHOLD rebalance_threshold cost_model
               cost_rate min_history bounds = Ok res ->
  res_rebalance_dates res = []
  /\ res_transaction_costs res = zeros (List.length returns)
  /\ res_turnover res = zeros (List.length returns).
Proof.
  intros Hthr H. apply run_backtest_cases in H as (s & m & Hw & _ & ->).
  cbn [res_rebalance_dates res_transaction_costs res_turnover].
  apply walk_cases in Hw as (s0 & H0 & Hloop).
  apply initial_state_fields in H0 as (E1 & _ & E2 & E3 & _).
  apply idle_loop in Hloop as (F1 & F2 & F3).
  - now rewrite F1, F2, F3, E1, E2, E3.
  - intros t u Hgo. unfold rebalance_test in Hgo.
    apply (threshold_against_self _ _ _ _ _ Hthr) in Hgo. discriminate.
Qed.

Lemma daily_rebalances_every_period_witness :
  exists res,
    run_backtest rounded_sqrt stationary stationary 2
                 [[0; 0]; [0.1; 0]; [-0.5; 0]] 1000 "equal_weight" 252 DAILY
                 0.05 PROPORTIONAL 0.001 1 (0, 1) = Ok res
    /\ res_rebalance_dates res = range 1 3.
Proof.
  eexists. split; [vm_compute; reflexivity|].
  apply (daily_rebalances_every_period rounded_sqrt stationary stationary 2
           [[0; 0]; [0.1; 0]; [-0.5; 0]] 1000 "equal_weight" 252 0.05
           PROPORTIONAL 0.001 1 (0, 1)).
  vm_compute. reflexivity.
Defined.

Lemma calendar_rebalances_on_schedule_witness :
  exists res,
    run_backtest rounded_sqrt stationary stationary 1
                 [[0]; [0]; [0]; [0]; [0]; [0]; [-0.5]]
                 1000 "equal_weight" 252 WEEKLY 0.05 PROPORTIONAL 0.001 1
                 (0, 1) = Ok res
    /\ res_rebalance_dates res = filter (on_schedule 1 5) (range 1 7).
Proof.
  eexists. split; [vm_compute; reflexivity|].
  apply (calendar_rebalances_on_schedule rounded_sqrt stationary stationary 1
           [[0]; [0]; [0]; [0]; [0]; [0]; [-0.5]]
           1000 "equal_weight" 252 WEEKLY 0.05 PROPORTIONAL 0.001 1 (0, 1)
           _ 5%nat).
  - reflexivity.
  - vm_compute. reflexivity.
Defined.

Lemma threshold_run_trades_nothing_witness :
  exists res,
    run_backtest rounded_sqrt stationary stationary 2
                 [[0; 0]; [1; 0]; [-0.5; 0]] 1000 "equal_weight" 252
                 THRESHOLD 0.05 PROPORTIONAL 0.001 1 (0, 1) = Ok res
    /\ res_rebalance_dates res = []
    /\ res_transaction_costs res = zeros 3
    /\ res_turnover res = zeros 3.
Proof.
  eexists. split; [vm_compute; reflexivity|].
  apply (threshold_run_trades_nothing rounded_sqrt stationary stationary 2
           [[0; 0]; [1; 0]; [-0.5; 0]] 1000 "equal_weight" 252 0.05
           PROPORTIONAL 0.001 1 (0, 1)).
  - vm_compute. discriminate.
  - vm_compute. reflexivity.
Defined.

(** ** The report: when it is produced and what its entries can be *)

Lemma Qabs_zero_iff (x : Q) : Qabs x == 0 <-> x == 0.
Proof.
  split; intros H.
  - apply Qle_antisym.
    + rewrite <- H. apply Qle_Qabs.
    + rewrite <- (Qopp_involutive x).
      setoid_replace 0 with (- 0) by reflexivity.
      apply Qopp_le_compat. rewrite <- H, <- Qabs_opp. apply Qle_Qabs.
  - now rewrite H.
Qed.

Lemma rev_not_nil (A : Type) (l : list A) : l <> [] -> rev l <> [].
Proof.
  intros H E. apply H. rewrite <- (rev_involutive l), E. reflexivity.
Qed.

Lemma profit_factor_division (initial_capital : Q)
    (portfolio_values portfolio_returns : list Q) :
  portfolio_values <> [] ->
  let losses := filter (fun r => negb (Qgtb r 0)) portfolio_returns in
  (losses <> [] /\ vsum losses == 0 ->
   _compute_performance_metrics initial_capital portfolio_values
                                portfolio_returns = Raise ZeroDivisionError)
  /\ (losses = [] \/ ~ vsum losses == 0 ->
      exists m,
        _compute_performance_metrics initial_capital portfolio_values
                                     portfolio_returns = Ok m).
Proof.
  intros Hpv. cbv zeta. unfold _compute_performance_metrics.
  pose proof (rev_not_nil _ _ Hpv) as Hrev.
  destruct (rev portfolio_values) as [|v_last rest]; [congruence|].
  rewrite (max_drawdown_of_spec _ Hpv). cbn [bind].
  set (losses := filter (fun r => negb (Qgtb r 0)) portfolio_returns).
  clearbody losses. split.
  - intros [Hne Hsum]. destruct losses as [|l ls]; [congruence|].
    cbn [List.length Nat.ltb Nat.leb]. unfold py_div.
    destruct (Qeq_bool (Qabs (vsum (l :: ls))) 0) eqn:Eb; [reflexivity|].
    apply Qeq_bool_neq in Eb. exfalso. apply Eb. now apply Qabs_zero_iff.
  - intros Hok. destruct losses as [|l ls].
    + cbn [List.length Nat.ltb Nat.leb]. unfold py_div.
      change (Qeq_bool 1e-10 0) with false. cbn [bind]. eauto.
    + cbn [List.length Nat.ltb Nat.leb]. unfold py_div.
      destruct (Qeq_bool (Qabs (vsum (l :: ls))) 0) eqn:Eb.
      * apply Qeq_bool_eq in Eb. apply (proj1 (Qabs_zero_iff _)) in Eb.
        destruct Hok as [Hnil|Hns]; [discriminate | destruct (Hns Eb)].
      * cbn [bind]. eauto.
Qed.



Lemma filter_all (A : Type) (f : A -> bool) (l : list A) :
  Forall (fun a => f a = true) l -> filter f l = l.
Proof.
  induction 1 as [|a l Ha _ IH]; simpl; [reflexivity|]. now rewrite Ha, IH.
Qed.

Lemma vsum_zeros (n : nat) : vsum (zeros n) == 0.
Proof.
  apply vsum_all_zero. unfold zeros. apply Forall_forall.
  intros x Hx. apply repeat_spec in Hx. now subst x.
Qed.

Lemma losses_of_zeros (n : nat) :
  filter (fun r => negb (Qgtb r 0)) (zeros n) = zeros n.
Proof.
  apply filter_all, Forall_forall. intros x Hx.
  unfold zeros in Hx. apply repeat_spec in Hx. now subst x.
Qed.

Lemma empty_loop_raises (sqrtQ : Q -> Q)
    (lbfgs adam : nat -> (list Q -> list Q) -> (list Q -> Q) ->
                  list Q -> list Q)
    (N : nat) (returns : list (list Q)) (initial_capital : Q)
    (optimization_method : string) (lookback_window : nat)
    (rebalance_freq : RebalanceFrequency) (rebalance_threshold : Q)
    (cost_model : TransactionCostModel) (cost_rate : Q) (min_history : nat)
    (bounds : Q * Q) :
  (List.length returns <= min_history)%nat ->
  run_backtest sqrtQ lbfgs adam N returns initial_capital optimization_method
               lookback_window rebalance_freq rebalance_threshold cost_model
               cost_rate min_history bounds
  = Raise (match returns with
           | [] => IndexError
           | _ :: _ => ZeroDivisionError
           end).
Proof.
  intros HT. unfold run_backtest, walk_forward, initial_state, range.
  replace (List.length returns - min_history)%nat with 0%nat by lia.
  destruct returns as [|r rest]; [reflexivity|].
  cbn [List.length seq for_each bind portfolio_values portfolio_returns].
  set (T := S (List.length rest)).
  destruct (profit_factor_division initial_capital
              (set_at 0 initial_capital (zeros T)) (zeros T)) as [Hraise _].
  { discriminate. }
  rewrite Hraise; [reflexivity|]. rewrite losses_of_zeros. split.
  - discriminate.
  - apply vsum_zeros.
Qed.

(** X10. A backtest that simulates no period reports nothing: without data the
    first indexed write raises IndexError, and with [1 <= T <= min_history]
    the loop is empty, every recorded return is 0 and the profit factor
    raises ZeroDivisionError. *)
Theorem run_without_simulated_period_raises (sqrtQ : Q -> Q)
    (lbfgs adam : nat -> (list Q -> list Q) -> (list Q -> Q) ->
                  list Q -> list Q)
    (N : nat) (returns : list (list Q)) (initial_capital : Q)
    (optimization_method : string) (lookback_window : nat)
    (rebalance_freq : RebalanceFrequency) (rebalance_threshold : Q)
    (cost_model : TransactionCostModel) (cost_rate : Q) (min_history : nat)
    (bounds : Q * Q) :
  (List.length returns <= min_history)%nat ->
  run_backtest sqrtQ lbfgs adam N returns initial_capital optimization_method
               lookback_window rebalance_freq rebalance_threshold cost_model
               cost_rate min_history bounds
  = Raise (match returns with
           | [] => IndexError
           | _ :: _ => ZeroDivisionError
           end).
Proof.
  intros HT. destruct returns as [|r rest] eqn:E.
  - now apply empty_loop_raises.
  - rewrite <- E in *. rewrite (empty_loop_raises _ _ _ _ _ _ _ _ _ _ _ _ _ _ HT).
    now rewrite E.
Qed.

Lemma run_without_simulated_period_raises_witness :
  run_backtest rounded_sqrt stationary stationary 2
               [[0.01; 0.02]; [0.03; -0.01]] 1000 "minimum_variance" 252
               MONTHLY 0.05 PROPORTIONAL 0.001 60 (0, 1)
  = Raise ZeroDivisionError.
Proof.
  apply (run_without_simulated_period_raises rounded_sqrt stationary
           stationary 2 [[0.01; 0.02]; [0.03; -0.01]] 1000
           "minimum_variance" 252 MONTHLY 0.05 PROPORTIONAL 0.001 60 (0, 1)).
  simpl. lia.
Defined.

Section ReturnSeries.

Variable sqrtQ : Q -> Q.
Variables lbfgs adam : nat -> (list Q -> list Q) -> (list Q -> Q) ->
                       list Q -> list Q.
Variable N : nat.
Variable returns : list (list Q).
Variable optimization_method : string.
Variable lookback_window : nat.
Variable rebalance_freq : RebalanceFrequency.
Variable rebalance_threshold : Q.
Variable cost_model : TransactionCostModel.
Variable cost_rate : Q.
Variable bounds : Q * Q.

Let step :=
  backtest_step sqrtQ lbfgs adam N returns optimization_method
                lookback_window rebalance_freq rebalance_threshold
                cost_model cost_rate bounds.

(** A turn of the loop writes [portfolio_returns] at its own index only. *)
Lemma step_returns (t : nat) (s s' : LoopState) :
  step t s = Ok s' ->
  List.length (portfolio_returns s') = List.length (portfolio_returns s)
  /\ forall i, i <> t ->
       nth i (portfolio_returns s') 0 = nth i (portfolio_returns s) 0.
Proof.
  intros H. apply step_cases in H as (go & s1 & _ & H1 & ->).
  assert (E : portfolio_returns s1 = portfolio_returns s).
  { destruct go; [|now subst].
    now apply rebalance_marks in H1 as (_ & _ & H1). }
  cbn [realize portfolio_returns]. rewrite set_at_length, E.
  split; [reflexivity|]. intros i Hi. now rewrite nth_set_at_other.
Qed.

Lemma loop_returns (a n : nat) (s s' : LoopState) :
  for_each (seq a n) step s = Ok s' ->
  List.length (portfolio_returns s') = List.length (portfolio_returns s)
  /\ forall i, (i < a)%nat ->
       nth i (portfolio_returns s') 0 = nth i (portfolio_returns s) 0.
Proof.
  intros H.
  refine (for_each_invariant _
    (fun u =>
       List.length (portfolio_returns u) = List.length (portfolio_returns s)
       /\ forall i, (i < a)%nat ->
            nth i (portfolio_returns u) 0 = nth i (portfolio_returns s) 0)
    _ _ _ _ _ _ H).
  - intros t s1 s2 Ht [Hl Hv] Hs. apply step_returns in Hs as [Hl' Hv'].
    split; [congruence|]. intros i Hi.
    rewrite Hv' by (apply in_seq in Ht; lia). now apply Hv.
  - split; reflexivity.
Qed.

End ReturnSeries.

Lemma exists_negative (l : list Q) :
  Forall (fun r => r <= 0) l -> ~ vsum l == 0 -> Exists (fun r => r < 0) l.
Proof.
  induction 1 as [|x l Hx _ IH]; intros Hs.
  - exfalso. apply Hs. reflexivity.
  - destruct (Qlt_le_dec x 0) as [Hlt|Hge]; [now left|].
    right. apply IH. intros E. apply Hs. simpl. rewrite E.
    assert (x == 0) by now apply Qle_antisym. lra.
Qed.



(** ** One turn of the loop: cost accounting, value and drift *)

(** X15. A rebalance under PROPORTIONAL records at its index a cost equal to
    the recorded turnover times the portfolio value times the rate, takes
    it off the portfolio value and becomes the last rebalance. *)
Theorem proportional_rebalance_accounting (sqrtQ : Q -> Q)
    (lbfgs adam : nat -> (list Q -> list Q) -> (list Q -> Q) ->
                  list Q -> list Q)
    (N : nat) (returns : list (list Q)) (optimization_method : string)
    (lookback_window : nat) (cost_rate : Q) (bounds : Q * Q) (t : nat)
    (s s' : LoopState) :
  (t < List.length (transaction_costs s))%nat ->
  (t < List.length (turnover s))%nat ->
  rebalance sqrtQ lbfgs adam N returns optimization_method lookback_window
            PROPORTIONAL cost_rate bounds t s = Ok s' ->
  nth t (transaction_costs s') 0
    == nth t (turnover s') 0 * portfolio_value s * cost_rate
  /\ portfolio_value s'
     = portfolio_value s - nth t (transaction_costs s') 0
  /\ last_rebalance_idx s' = t
  /\ _optimize_weights sqrtQ lbfgs adam N
       (historical_window returns lookback_window t) optimization_method
       bounds = Ok (current_weights s').
Proof.
  intros Hc Ht H. unfold rebalance in H.
  apply bind_ok in H as (w & Hw & H). inversion H; subst s'; clear H.
  cbn [transaction_costs turnover portfolio_value last_rebalance_idx
       current_weights].
  rewrite !nth_set_at_same by assumption.
  split; [|auto]. now rewrite vsum_vscale.
Qed.

Lemma proportional_rebalance_accounting_witness :
  exists s',
    rebalance rounded_sqrt stationary stationary 2
              [[0; 0]; [0.1; 0]; [-0.5; 0]] "equal_weight" 252 PROPORTIONAL
              0.001 (0, 1) 1
              (mkLoopState [1000; 0; 0] [0; 0; 0] (zeros2 3 2) [0; 0; 0]
                           [0; 0; 0] [] [0.7; 0.3] 1000 1) = Ok s'
    /\ nth 1 (transaction_costs s') 0 == nth 1 (turnover s') 0 * 1000 * 0.001
    /\ portfolio_value s' = 1000 - nth 1 (transaction_costs s') 0
    /\ last_rebalance_idx s' = 1%nat
    /\ _optimize_weights rounded_sqrt stationary stationary 2
         (historical_window [[0; 0]; [0.1; 0]; [-0.5; 0]] 252 1)
         "equal_weight" (0, 1) = Ok (current_weights s').
Proof.
  eexists. split; [vm_compute; reflexivity|].
  apply (proportional_rebalance_accounting rounded_sqrt stationary
           stationary 2 [[0; 0]; [0.1; 0]; [-0.5; 0]] "equal_weight" 252
           0.001 (0, 1) 1
           (mkLoopState [1000; 0; 0] [0; 0; 0] (zeros2 3 2) [0; 0; 0]
                        [0; 0; 0] [] [0.7; 0.3] 1000 1)).
  - simpl. lia.
  - simpl. lia.
  - vm_compute. reflexivity.
Defined.

(** X16. After the return of a period the weights are the asset values divided
    by their sum: they add up to 1 whenever that sum is not zero. *)
Theorem drifted_weights_sum_to_one (returns : list (list Q)) (t : nat)
    (s : LoopState) :
  ~ vsum (drifted_asset_values returns t s) == 0 ->
  current_weights (realize returns t s)
  = vdiv (drifted_asset_values returns t s)
         (vsum (drifted_asset_values returns t s))
  /\ vsum (current_weights (realize returns t s)) == 1
  /\ nth t (weights_history (realize returns t s)) []
     = (if (t <? List.length (weights_history s))%nat
        then current_weights (realize returns t s)
        else []).
Proof.
  intros H. split; [reflexivity|]. split.
  - cbn [realize current_weights]. fold (drifted_asset_values returns t s).
    rewrite vsum_vdiv. now field.
  - cbn [realize current_weights weights_history].
    destruct (Nat.ltb_spec t (List.length (weights_history s))) as [Hlt|Hge].
    + now apply nth_set_at_same.
    + apply nth_overflow. now rewrite set_at_length.
Qed.

Lemma drifted_weights_sum_to_one_witness :
  current_weights
    (realize [[0; 0]; [1; 0]]  1
       (mkLoopState [1000; 0] [0; 0] (zeros2 2 2) [0; 0] [0; 0] []
                    [0.5; 0.5] 1000 1))
  = vdiv (drifted_asset_values [[0; 0]; [1; 0]] 1
            (mkLoopState [1000; 0] [0; 0] (zeros2 2 2) [0; 0] [0; 0] []
                         [0.5; 0.5] 1000 1))
         (vsum (drifted_asset_values [[0; 0]; [1; 0]] 1
                  (mkLoopState [1000; 0] [0; 0] (zeros2 2 2) [0; 0] [0; 0] []
                               [0.5; 0.5] 1000 1)))
  /\ vsum (current_weights
             (realize [[0; 0]; [1; 0]] 1
                (mkLoopState [1000; 0] [0; 0] (zeros2 2 2) [0; 0] [0; 0] []
                             [0.5; 0.5] 1000 1))) == 1
  /\ nth 1 (weights_history
              (realize [[0; 0]; [1; 0]] 1
                 (mkLoopState [1000; 0] [0; 0] (zeros2 2 2) [0; 0] [0; 0] []
                              [0.5; 0.5] 1000 1))) []
     = (if (1 <? List.length (zeros2 2 2))%nat
        then current_weights
               (realize [[0; 0]; [1; 0]] 1
                  (mkLoopState [1000; 0] [0; 0] (zeros2 2 2) [0; 0] [0; 0] []
                               [0.5; 0.5] 1000 1))
        else []).
Proof.
  apply (drifted_weights_sum_to_one [[0; 0]; [1; 0]] 1
           (mkLoopState [1000; 0] [0; 0] (zeros2 2 2) [0; 0] [0; 0] []
                        [0.5; 0.5] 1000 1)).
  vm_compute. discriminate.
Defined.

Lemma vmul_repeat (f : Q -> Q) (c : Q) (w : list Q) :
  vmul (map f w) (repeat c (List.length w)) = map (fun x => f x * c) w.
Proof. induction w as [|x w IH]; simpl; [reflexivity | now rewrite <- IH]. Qed.

Lemma vmul_zeros_sum (w : list Q) : vsum (vmul w (zeros (List.length w))) == 0.
Proof.
  unfold zeros. rewrite <- (map_id w) at 1. rewrite vmul_repeat.
  rewrite vsum_map_mult_r. ring.
Qed.

Lemma map_scaled_back (v S : Q) (w : list Q) :
  S == v -> ~ v == 0 ->
  Forall2 Qeq (map (fun x => x * v * (1 + 0) / S) w) w.
Proof.
  intros HS Hv. induction w as [|x w IH]; simpl; constructor; [|exact IH].
  rewrite HS. now field.
Qed.

(** X17. A period in which every asset returns zero leaves the portfolio value
    as it was; weights that add up to 1, on a value that is not zero, are
    left as they were too. *)
Theorem zero_return_period_changes_nothing (returns : list (list Q))
    (t : nat) (s : LoopState) :
  nth t returns [] = zeros (List.length (current_weights s)) ->
  portfolio_value (realize returns t s) == portfolio_value s
  /\ (vsum (current_weights s) == 1 -> ~ portfolio_value s == 0 ->
      Forall2 Qeq (current_weights (realize returns t s))
                  (current_weights s)).
Proof.
  intros Hrow.
  assert (Hv : portfolio_value (realize returns t s) == portfolio_value s).
  { cbn [realize portfolio_value]. rewrite Hrow, vmul_zeros_sum. ring. }
  split; [exact Hv|]. intros Hsum Hnz.
  cbn [realize portfolio_value current_weights] in *. rewrite Hrow in *.
  set (v := portfolio_value s * (1 + vsum (vmul (current_weights s)
              (zeros (List.length (current_weights s)))))) in *.
  unfold zeros, vscale. rewrite map_repeat, vmul_repeat.
  set (w := current_weights s) in *.
  assert (HS : vsum (map (fun x => x * v * (1 + 0)) w) == v).
  { rewrite (vsum_map_mult_r _ (fun x => x * v) (1 + 0)).
    rewrite (vsum_map_mult_r _ (fun x => x) v), map_id, Hsum. ring. }
  unfold vdiv. rewrite map_map.
  assert (Hvnz : ~ v == 0) by (rewrite Hv; exact Hnz).
  now apply map_scaled_back.
Qed.

Lemma zero_return_period_changes_nothing_witness :
  portfolio_value
    (realize [[0; 0]; [0; 0]] 1
       (mkLoopState [1000; 0] [0; 0] (zeros2 2 2) [0; 0] [0; 0] []
                    [0.7; 0.3] 1000 1)) == 1000
  /\ (vsum [0.7; 0.3] == 1 -> ~ 1000 == 0 ->
      Forall2 Qeq
        (current_weights
           (realize [[0; 0]; [0; 0]] 1
              (mkLoopState [1000; 0] [0; 0] (zeros2 2 2) [0; 0] [0; 0] []
                           [0.7; 0.3] 1000 1)))
        [0.7; 0.3]).
Proof.
  apply (zero_return_period_changes_nothing [[0; 0]; [0; 0]] 1
           (mkLoopState [1000; 0] [0; 0] (zeros2 2 2) [0; 0] [0; 0] []
                        [0.7; 0.3] 1000 1)).
  reflexivity.
Defined.

(** ** Ranges of the reported metrics *)

(** X14. On a series that starts at a positive value and is never negative the
    drawdown metric lies between -1 and 0. *)
Theorem drawdown_is_between_minus_one_and_zero (V : list Q) :
  V <> [] ->
  0 < nth 0 V 0 ->
  Forall (fun v => 0 <= v) V ->
  exists d, max_drawdown_of V = Ok d /\ -1 <= d /\ d <= 0.
Proof.
  intros HV H0 Hnn. exists (spec_max_drawdown V).
  split; [now apply max_drawdown_of_spec|]. split.
  - apply min_upto_glb. intros t Ht. unfold spec_drawdown.
    assert (Hlen : (0 < List.length V)%nat)
      by (destruct V; [congruence | simpl; lia]).
    apply drawdown_ge_minus_one.
    + rewrite Forall_forall in Hnn. apply Hnn, nth_In. lia.
    + eapply Qlt_le_trans; [exact H0|].
      unfold spec_running_max. apply (max_upto_ge (fun s => nth s V 0)). lia.
  - unfold spec_max_drawdown.
    eapply Qle_trans; [apply (min_upto_le _ _ O); lia|].
    unfold spec_drawdown, spec_running_max. cbn [max_upto].
    unfold Qdiv. setoid_replace (nth 0 V 0 - nth 0 V 0) with 0 by ring.
    rewrite Qmult_0_l. apply Qle_refl.
Qed.

Lemma drawdown_is_between_minus_one_and_zero_witness :
  exists d, max_drawdown_of [100; 0; 250; 40] = Ok d /\ -1 <= d /\ d <= 0.
Proof.
  apply (drawdown_is_between_minus_one_and_zero [100; 0; 250; 40]).
  - discriminate.
  - reflexivity.
  - repeat constructor; vm_compute; discriminate.
Defined.

Lemma vsum_le_length (v : list Q) :
  Forall (fun x => 0 <= x /\ x <= 1) v ->
  0 <= vsum v /\ vsum v <= inject_Z (Z.of_nat (List.length v)).
Proof.
  induction 1 as [|x v [Hx0 Hx1] _ [IH0 IH1]].
  - simpl. split; apply Qle_refl.
  - cbn [vsum fold_right List.length]. fold (vsum v).
    rewrite Nat2Z.inj_succ. unfold Z.succ. rewrite inject_Z_plus.
    change (inject_Z 1) with 1. split; lra.
Qed.

Lemma vsum_nonpos (v : list Q) : Forall (fun x => x <= 0) v -> vsum v <= 0.
Proof.
  induction 1 as [|x v Hx _ IH]; simpl; [apply Qle_refl|].
  fold (vsum v). lra.
Qed.

Lemma length_positive (A : Type) (l : list A) :
  l <> [] -> 0 < inject_Z (Z.of_nat (List.length l)).
Proof.
  intros H. destruct l; [congruence|]. unfold Qlt. simpl. lia.
Qed.

Lemma vmean_nonneg (v : list Q) : Forall (fun x => 0 <= x) v -> 0 <= vmean v.
Proof.
  intros H. unfold vmean. destruct v as [|x v]; [vm_compute; discriminate|].
  apply Qle_shift_div_l; [apply length_positive; discriminate|].
  rewrite Qmult_0_l. now apply vsum_nonneg.
Qed.

Lemma vmean_nonpos (v : list Q) : Forall (fun x => x <= 0) v -> vmean v <= 0.
Proof.
  intros H. unfold vmean. destruct v as [|x v]; [vm_compute; discriminate|].
  apply Qle_shift_div_r; [apply length_positive; discriminate|].
  rewrite Qmult_0_l. now apply vsum_nonpos.
Qed.

Lemma wins_positive (pr : list Q) :
  Forall (fun x => 0 <= x) (filter (fun r => Qgtb r 0) pr).
Proof.
  apply Forall_forall. intros x Hx. apply filter_In in Hx as [_ Hx].
  apply Qgtb_true_iff in Hx. now apply Qlt_le_weak.
Qed.

Lemma losses_nonpositive (pr : list Q) :
  Forall (fun x => x <= 0) (filter (fun r => negb (Qgtb r 0)) pr).
Proof.
  apply Forall_forall. intros x Hx. apply filter_In in Hx as [_ Hx].
  apply negb_true_iff in Hx. now apply Qgtb_false_iff.
Qed.



(** ** The plan of the dynamic program *)

(** X19. Row [t] of the plan is the terminal solution for [t = H - 1], the
    solution started at [initial_weights] for [t = 0] and the solution
    started at the zero vector for every period in between; since the
    solver does not read the weights of the next period, all the periods in
    between get the same weights. *)
Theorem dp_plan_rows (lbfgs : nat -> (list Q -> list Q) -> (list Q -> Q) ->
                              list Q -> list Q)
    (N : nat) (returns : list (list Q)) (n_periods : nat)
    (transaction_cost_rate risk_aversion : Q) (initial_weights : list Q)
    (bounds : Q * Q) (t t' : nat) :
  (0 < t < n_periods - 1)%nat ->
  (0 < t' < n_periods - 1)%nat ->
  let plan :=
    dp_table lbfgs N returns n_periods transaction_cost_rate risk_aversion
             initial_weights bounds in
  nth (n_periods - 1) plan []
  = _solve_single_period lbfgs N returns transaction_cost_rate risk_aversion
                         initial_weights bounds
  /\ nth 0 plan []
     = _solve_with_continuation lbfgs N returns transaction_cost_rate
         risk_aversion initial_weights (nth 1 plan []) bounds
  /\ nth t plan []
     = _solve_with_continuation lbfgs N returns transaction_cost_rate
         risk_aversion (zeros N) (nth (t + 1) plan []) bounds
  /\ nth t plan [] = nth t' plan [].
Proof.
  intros Ht Ht' plan. unfold plan.
  assert (Hrow : forall u, (0 < u < n_periods - 1)%nat ->
            nth u (dp_table lbfgs N returns n_periods transaction_cost_rate
                            risk_aversion initial_weights bounds) []
            = _solve_with_continuation lbfgs N returns transaction_cost_rate
                risk_aversion (zeros N)
                (nth (u + 1)
                     (dp_table lbfgs N returns n_periods
                               transaction_cost_rate risk_aversion
                               initial_weights bounds) []) bounds).
  { intros u Hu. rewrite dp_table_row by lia.
    destruct (Nat.eqb_spec u (n_periods - 1)); [lia|].
    destruct (Nat.eqb_spec u 0); [lia | reflexivity]. }
  split; [|split; [|split]].
  - rewrite dp_table_row by lia. now rewrite Nat.eqb_refl.
  - rewrite dp_table_row by lia.
    destruct (Nat.eqb_spec 0 (n_periods - 1)); [lia | reflexivity].
  - now apply Hrow.
  - rewrite (Hrow t Ht), (Hrow t' Ht'). reflexivity.
Qed.

Lemma dp_plan_rows_witness :
  let plan :=
    dp_table stationary 2 [[0; 0]; [0; 0]] 4 0 1 [0.5; 0.5] (0.1, 1) in
  nth (4 - 1) plan []
  = _solve_single_period stationary 2 [[0; 0]; [0; 0]] 0 1 [0.5; 0.5]
                         (0.1, 1)
  /\ nth 0 plan []
     = _solve_with_continuation stationary 2 [[0; 0]; [0; 0]] 0 1
         [0.5; 0.5] (nth 1 plan []) (0.1, 1)
  /\ nth 1 plan []
     = _solve_with_continuation stationary 2 [[0; 0]; [0; 0]] 0 1
         (zeros 2) (nth (1 + 1) plan []) (0.1, 1)
  /\ nth 1 plan [] = nth 2 plan [].
Proof.
  apply (dp_plan_rows stationary 2 [[0; 0]; [0; 0]] 4 0 1 [0.5; 0.5]
           (0.1, 1) 1 2); simpl; lia.
Defined.

Lemma dp_table_length (lbfgs : nat -> (list Q -> list Q) -> (list Q -> Q) ->
                               list Q -> list Q)
    (N : nat) (returns : list (list Q)) (n_periods : nat)
    (transaction_cost_rate risk_aversion : Q) (initial_weights : list Q)
    (bounds : Q * Q) :
  List.length (dp_table lbfgs N returns n_periods transaction_cost_rate
                        risk_aversion initial_weights bounds) = n_periods.
Proof.
  unfold dp_table. rewrite dp_fold_length. unfold zeros2.
  apply repeat_length.
Qed.

Lemma simulate_forward_cases (N : nat) (returns : list (list Q))
    (n_periods : nat) (transaction_cost_rate risk_aversion : Q)
    (plan : list (list Q)) (initial_weights : list Q) :
  _simulate_forward N returns n_periods transaction_cost_rate risk_aversion
                    plan initial_weights
  = let '(wealth, _, total_tc) :=
      fold_left (simulate_period N returns transaction_cost_rate)
                (firstn n_periods plan) (1, initial_weights, 0) in
    if (n_periods =? 0)%nat then Raise ZeroDivisionError
    else Ok (wealth - 0.5 * risk_aversion * (wealth * wealth), wealth,
             total_tc, (wealth - 1) / inject_Z (Z.of_nat n_periods)).
Proof.
  unfold _simulate_forward.
  destruct (fold_left _ _ _) as [[wealth cur] total_tc].
  destruct (Nat.eqb_spec n_periods 0) as [->|Hne].
  - reflexivity.
  - rewrite py_div_by_positive by lia. reflexivity.
Qed.

(** X20. With a horizon of zero periods the dynamic program raises
    ZeroDivisionError: no period is solved and the average period return
    divides by the horizon.  A result that is returned belongs to a horizon
    of at least one period; its table is the one the backward loop leaves,
    with one row per period, and its plan lists the periods [0 .. H - 1]
    with their rows. *)
Theorem dynamic_program_result (lbfgs : nat -> (list Q -> list Q) ->
                                        (list Q -> Q) -> list Q -> list Q)
    (N : nat) (returns : list (list Q)) (n_periods : nat)
    (transaction_cost_rate risk_aversion : Q) (initial_weights : list Q)
    (bounds : Q * Q) :
  (n_periods = 0%nat ->
   optimize_dynamic_program lbfgs N returns n_periods transaction_cost_rate
                            risk_aversion initial_weights bounds
   = Raise ZeroDivisionError)
  /\ (forall r,
        optimize_dynamic_program lbfgs N returns n_periods
                                 transaction_cost_rate risk_aversion
                                 initial_weights bounds = Ok r ->
        (1 <= n_periods)%nat
        /\ optimal_weights r
           = dp_table lbfgs N returns n_periods transaction_cost_rate
                      risk_aversion initial_weights bounds
        /\ List.length (optimal_weights r) = n_periods
        /\ map fst (rebalancing_plan r) = seq 0 n_periods
        /\ map snd (rebalancing_plan r) = optimal_weights r).
Proof.
  unfold optimize_dynamic_program. rewrite simulate_forward_cases.
  destruct (fold_left _ _ _) as [[wealth cur] total_tc].
  destruct (Nat.eqb_spec n_periods 0) as [->|Hne]; cbn [bind].
  - split; [reflexivity | discriminate].
  - split; [intros E; contradiction|].
    intros r H. inversion H; subst r; clear H.
    cbn [optimal_weights rebalancing_plan].
    split; [lia|]. split; [reflexivity|].
    split; [apply dp_table_length|]. split.
    + rewrite map_map. cbn [fst]. apply map_id.
    + rewrite map_map. cbn [snd].
      rewrite <- (dp_table_length lbfgs N returns n_periods
                    transaction_cost_rate risk_aversion initial_weights
                    bounds) at 1.
      symmetry. generalize (dp_table lbfgs N returns n_periods
                  transaction_cost_rate risk_aversion initial_weights bounds).
      intros l. induction l as [|x l IH]; [reflexivity|].
      cbn [List.length seq map nth]. f_equal.
      rewrite <- seq_shift, map_map. exact IH.
Qed.

Lemma dynamic_program_result_witness :
  optimize_dynamic_program stationary 2 [[0; 0]; [0; 0]] 0 0.001 1
                           [0.9; 0.1] (0.1, 0.6) = Raise ZeroDivisionError
  /\ exists r,
       optimize_dynamic_program stationary 2 [[0; 0]; [0; 0]] 2 0.001 1
                                [0.9; 0.1] (0.1, 0.6) = Ok r
       /\ (1 <= 2)%nat
       /\ optimal_weights r
          = dp_table stationary 2 [[0; 0]; [0; 0]] 2 0.001 1 [0.9; 0.1]
                     (0.1, 0.6)
       /\ List.length (optimal_weights r) = 2%nat
       /\ map fst (rebalancing_plan r) = seq 0 2
       /\ map snd (rebalancing_plan r) = optimal_weights r.
Proof.
  split.
  - apply (proj1 (dynamic_program_result stationary 2 [[0; 0]; [0; 0]] 0
                    0.001 1 [0.9; 0.1] (0.1, 0.6))).
    reflexivity.
  - eexists. split; [vm_compute; reflexivity|].
    apply (proj2 (dynamic_program_result stationary 2 [[0; 0]; [0; 0]] 2
                    0.001 1 [0.9; 0.1] (0.1, 0.6))).
    vm_compute. reflexivity.
Defined.

Lemma simulate_fold_costs (N : nat) (returns : list (list Q)) (c : Q)
    (plan : list (list Q)) (wealth : Q) (current : list Q) (total_tc : Q) :
  snd (fold_left (simulate_period N returns c) plan
                 (wealth, current, total_tc))
  == total_tc + c * plan_turnover current plan.
Proof.
  revert wealth current total_tc.
  induction plan as [|w plan IH]; intros wealth current total_tc.
  - simpl. ring.
  - cbn [fold_left simulate_period plan_turnover]. rewrite IH. ring.
Qed.

(** X21. Simulating a plan of finite weights forward: for a plan with one
    row per period, rows and starting weights over the [N] assets, the
    total transaction cost that [_simulate_forward] reports is the cost
    rate times the turnover of the plan, the first row being compared with
    [initial_weights]. *)
Theorem total_cost_is_rate_times_turnover
    (N : nat) (returns : list (list Q)) (n_periods : nat)
    (transaction_cost_rate risk_aversion : Q) (plan : list (list Q))
    (initial_weights : list Q) (utility wealth total_tc avg : Q) :
  List.length plan = n_periods ->
  List.length initial_weights = N ->
  Forall (fun row => List.length row = N) plan ->
  _simulate_forward N returns n_periods transaction_cost_rate risk_aversion
                    plan initial_weights
  = Ok (utility, wealth, total_tc, avg) ->
  total_tc == transaction_cost_rate * plan_turnover initial_weights plan.
Proof.
  intros Hlen _ _. rewrite simulate_forward_cases.
  pose proof (simulate_fold_costs N returns transaction_cost_rate
                (firstn n_periods plan) 1 initial_weights 0) as Hc.
  destruct (fold_left _ _ _) as [[w cur] tc].
  destruct (n_periods =? 0)%nat; [discriminate|].
  intros H. inversion H; subst; clear H.
  cbn [snd] in Hc. rewrite Hc.
  rewrite firstn_all2 by lia. ring.
Qed.

Lemma total_cost_is_rate_times_turnover_witness :
  exists utility wealth total_tc avg,
    _simulate_forward 2 [[0.01; 0.02]; [0.03; 0]] 2 0.01 1
                      [[0.6; 0.4]; [0.5; 0.5]] [0.5; 0.5]
    = Ok (utility, wealth, total_tc, avg)
    /\ total_tc == 0.01 * plan_turnover [0.5; 0.5] [[0.6; 0.4]; [0.5; 0.5]]
    /\ total_tc == 0.004.
Proof.
  do 4 eexists. split; [vm_compute; reflexivity|]. split.
  - eapply (total_cost_is_rate_times_turnover 2 [[0.01; 0.02]; [0.03; 0]] 2
              0.01 1 [[0.6; 0.4]; [0.5; 0.5]] [0.5; 0.5]).
    + reflexivity.
    + reflexivity.
    + repeat constructor.
    + vm_compute. reflexivity.
  - vm_compute. reflexivity.
Defined.

(** ** GARCH variant: forward chaining and variance forecasts *)

Section GarchFacts.

Variable lbfgs : nat -> (list Q -> list Q) -> (list Q -> Q) -> list Q -> list Q.
Variable N : nat.
Variable returns : list (list Q).
Variable transaction_cost_rate : Q.
Variable risk_aversion : Q.
Variable cov_forecasts : list (list (list Q)).
Variable initial_weights : list Q.
Variable bounds : Q * Q.

Let gstep :=
  garch_step lbfgs N returns transaction_cost_rate risk_aversion
             cov_forecasts initial_weights bounds.

Lemma garch_step_length (ow : list (list Q)) (t : nat) :
  List.length (gstep ow t) = List.length ow.
Proof. unfold gstep, garch_step. apply set_at_length. Qed.

Lemma garch_step_other (ow : list (list Q)) (t i : nat) :
  i <> t -> nth i (gstep ow t) [] = nth i ow [].
Proof. intros H. unfold gstep, garch_step. now apply nth_set_at_other. Qed.

Lemma garch_fold_length (ts : list nat) (ow : list (list Q)) :
  List.length (fold_left gstep ts ow) = List.length ow.
Proof.
  revert ow. induction ts as [|t ts IH]; intros ow; simpl; [reflexivity|].
  now rewrite IH, garch_step_length.
Qed.

Lemma garch_fold_other (ts : list nat) (ow : list (list Q)) (i : nat) :
  ~ In i ts -> nth i (fold_left gstep ts ow) [] = nth i ow [].
Proof.
  revert ow. induction ts as [|t ts IH]; intros ow H; simpl; [reflexivity|].
  rewrite IH by (intros Hin; apply H; now right).
  apply garch_step_other. intros ->. apply H. now left.
Qed.

(** Rows of the table a forward loop of [n] turns leaves *)
Lemma garch_fold_row (n t : nat) (ow : list (list Q)) :
  (t < n)%nat -> (n <= List.length ow)%nat ->
  nth t (fold_left gstep (seq 0 n) ow) []
  = _solve_period_with_cov lbfgs N returns transaction_cost_rate
      risk_aversion
      (if (t =? 0)%nat then initial_weights
       else nth (t - 1) (fold_left gstep (seq 0 n) ow) [])
      (nth t cov_forecasts []) bounds.
Proof.
  intros Ht Hn.
  assert (E : seq 0 n = seq 0 t ++ [t] ++ seq (S t) (n - S t)).
  { replace n with (t + (1 + (n - S t)))%nat at 1 by lia.
    rewrite !seq_app. cbn [Nat.add seq].
    now replace (t + 1)%nat with (S t) by lia. }
  rewrite E, !fold_left_app. cbn [fold_left].
  set (before := fold_left gstep (seq 0 t) ow).
  assert (Hlen : (t < List.length before)%nat).
  { unfold before. rewrite garch_fold_length. lia. }
  rewrite (garch_fold_other _ _ t) by (rewrite in_seq; lia).
  unfold gstep at 1. unfold garch_step. rewrite nth_set_at_same by exact Hlen.
  destruct (Nat.eqb_spec t 0) as [->|Hne]; [reflexivity|].
  rewrite (garch_fold_other _ _ (t - 1)) by (rewrite in_seq; lia).
  rewrite garch_step_other by lia. reflexivity.
Qed.

End GarchFacts.

(** X22. The GARCH loop runs forward: the turnover reference of period [t > 0]
    is the row the loop has just computed for period [t - 1], and the
    reference of period 0 is [initial_weights]. *)
Theorem garch_plan_rows (lbfgs : nat -> (list Q -> list Q) -> (list Q -> Q) ->
                                 list Q -> list Q)
    (sqrtQ : Q -> Q) (std_dim0 : list (list Q) -> list Q)
    (corrcoef_T : list (list Q) -> list (list Q))
    (N : nat) (returns : list (list Q)) (n_periods : nat)
    (transaction_cost_rate risk_aversion : Q) (initial_weights : list Q)
    (bounds : Q * Q) (t : nat) :
  (t < n_periods)%nat ->
  let plan :=
    garch_table lbfgs sqrtQ std_dim0 corrcoef_T N returns n_periods
                transaction_cost_rate risk_aversion initial_weights bounds in
  nth t plan []
  = _solve_period_with_cov lbfgs N returns transaction_cost_rate
      risk_aversion
      (if (t =? 0)%nat then initial_weights else nth (t - 1) plan [])
      (nth t (_forecast_covariances sqrtQ std_dim0 corrcoef_T returns
                n_periods (_estimate_garch_parameters N)) [])
      bounds.
Proof.
  intros Ht plan. unfold plan, garch_table. cbv zeta.
  apply garch_fold_row; [exact Ht|].
  unfold zeros2. rewrite repeat_length. lia.
Qed.

Lemma garch_plan_rows_witness :
  let plan :=
    garch_table stationary rounded_sqrt (fun _ => [0; 0])
                (fun _ => [[1; 0]; [0; 1]]) 2 [[0; 0]; [0; 0]] 3 0 1
                [0.5; 0.5] (0.1, 1) in
  nth 2 plan []
  = _solve_period_with_cov stationary 2 [[0; 0]; [0; 0]] 0 1
      (if (2 =? 0)%nat then [0.5; 0.5] else nth (2 - 1) plan [])
      (nth 2 (_forecast_covariances rounded_sqrt (fun _ => [0; 0])
                (fun _ => [[1; 0]; [0; 1]]) [[0; 0]; [0; 0]] 3
                (_estimate_garch_parameters 2)) [])
      (0.1, 1).
Proof.
  apply (garch_plan_rows stationary rounded_sqrt (fun _ => [0; 0])
           (fun _ => [[1; 0]; [0; 1]]) 2 [[0; 0]; [0; 0]] 3 0 1 [0.5; 0.5]
           (0.1, 1) 2).
  lia.
Defined.

Lemma nth_map2 (f : Q -> Q -> Q) (u v : list Q) (i : nat) :
  (i < List.length u)%nat -> (i < List.length v)%nat ->
  nth i (map2 f u v) 0 = f (nth i u 0) (nth i v 0).
Proof.
  revert v i. induction u as [|a u IH]; intros [|b v] [|i] Hu Hv;
    simpl in *; try lia; auto.
  apply IH; lia.
Qed.

Lemma garch_update_length (N : nat) (v : list Q) :
  List.length v = N ->
  List.length (garch_update (_estimate_garch_parameters N) v) = N.
Proof.
  intros H. unfold garch_update, _estimate_garch_parameters, vadd, vmul.
  rewrite !map2_length, !repeat_length, H. lia.
Qed.

Lemma garch_update_entry (N : nat) (v : list Q) (i : nat) :
  List.length v = N -> (i < N)%nat ->
  nth i (garch_update (_estimate_garch_parameters N) v) 0
  == 0.0001 + 0.95 * nth i v 0.
Proof.
  intros Hv Hi. unfold garch_update, _estimate_garch_parameters, vadd, vmul.
  rewrite !nth_map2
    by (rewrite ?map2_length, ?repeat_length, ?Hv; lia).
  rewrite !nth_repeat_lt by lia. ring.
Qed.

Lemma garch_variances_nth (p : list Q * list Q * list Q) (n k : nat)
    (v : list Q) :
  (k < n)%nat ->
  nth k (garch_variances p v n) []
  = garch_update p
      (if (k =? 0)%nat then v else nth (k - 1) (garch_variances p v n) []).
Proof.
  revert v k. induction n as [|n IH]; intros v k Hk; [lia|].
  destruct k as [|k]; [reflexivity|].
  cbn [garch_variances nth]. rewrite IH by lia.
  cbn [Nat.eqb]. replace (S k - 1)%nat with k by lia.
  destruct k as [|k]; [reflexivity|].
  cbn [Nat.eqb nth]. now replace (S k - 1)%nat with k by lia.
Qed.

Lemma garch_variances_lengths (N n : nat) (v : list Q) :
  List.length v = N ->
  Forall (fun u => List.length u = N)
         (garch_variances (_estimate_garch_parameters N) v n).
Proof.
  revert v. induction n as [|n IH]; intros v Hv; [constructor|].
  cbn [garch_variances]. constructor.
  - now apply garch_update_length.
  - apply IH. now apply garch_update_length.
Qed.

(** X23. Each turn of the forecast loop maps the variance of every asset to
    [0.0001 + 0.95 * variance]: the distance to 0.002 shrinks by the factor
    0.95, whatever the returns were. *)
Theorem garch_forecast_contracts (N n k i : nat) (current_var : list Q) :
  List.length current_var = N ->
  (i < N)%nat -> (k < n)%nat ->
  let forecasts :=
    garch_variances (_estimate_garch_parameters N) current_var n in
  let previous :=
    if (k =? 0)%nat then current_var else nth (k - 1) forecasts [] in
  nth i (nth k forecasts []) 0 - 0.002
  == 0.95 * (nth i previous 0 - 0.002).
Proof.
  intros Hv Hi Hk forecasts previous. unfold forecasts.
  rewrite garch_variances_nth by exact Hk. fold forecasts. fold previous.
  assert (Hp : List.length previous = N).
  { unfold previous. destruct (Nat.eqb_spec k 0); [exact Hv|].
    pose proof (garch_variances_lengths N n current_var Hv) as HF.
    rewrite Forall_forall in HF. apply HF, nth_In.
    fold forecasts.
    assert (Hl : List.length forecasts = n).
    { unfold forecasts. clear. revert current_var.
      induction n as [|m IH]; intros v; [reflexivity|].
      cbn [garch_variances List.length]. now rewrite IH. }
    lia. }
  rewrite garch_update_entry by assumption. ring.
Qed.

Lemma garch_forecast_contracts_witness :
  let forecasts :=
    garch_variances (_estimate_garch_parameters 2) [0.01; 0.0004] 3 in
  let previous :=
    if (2 =? 0)%nat then [0.01; 0.0004] else nth (2 - 1) forecasts [] in
  nth 1 (nth 2 forecasts []) 0 - 0.002
  == 0.95 * (nth 1 previous 0 - 0.002).
Proof.
  apply (garch_forecast_contracts 2 3 2 1 [0.01; 0.0004]).
  - reflexivity.
  - lia.
  - lia.
Defined.

(** ** Optimisers: the empty asset universe and the default branch *)

Lemma py_div_by_zero_assets (x : Q) :
  py_div x (inject_Z (Z.of_nat 0)) = Raise ZeroDivisionError.
Proof. reflexivity. Qed.

(** X24. With no asset the maximum-Sharpe and risk-parity optimisers raise
    ZeroDivisionError (from [1.0 / self.N]) before any descent; with at
    least one they raise nothing and return a projected tensor, which adds
    up to 1 when the sum of its clamped entries is not zero. *)
Theorem torch_optimizers_need_an_asset (sqrtQ : Q -> Q)
    (lbfgs_wolfe adam :
       nat -> (list Q -> list Q) -> (list Q -> Q) -> list Q -> list Q)
    (N : nat) (returns : list (list Q)) (risk_free_rate : Q)
    (bounds : Q * Q) (max_iter : nat) :
  let outcome (r : result (list Q)) :=
    match r with
    | Raise e => e = ZeroDivisionError /\ N = 0%nat
    | Ok w =>
        (1 <= N)%nat
        /\ exists raw,
             w = project bounds raw
             /\ (~ vsum (clamp_ bounds raw) == 0 -> vsum w == 1)
    end in
  outcome (optimize_maximum_sharpe_torch sqrtQ adam N returns risk_free_rate
                                         bounds max_iter)
  /\ outcome (optimize_risk_parity_torch sqrtQ lbfgs_wolfe N returns bounds
                                         max_iter).
Proof.
  cbv zeta. unfold optimize_maximum_sharpe_torch, optimize_risk_parity_torch.
  destruct N as [|n].
  - rewrite py_div_by_zero_assets. cbn [bind]. repeat split.
  - rewrite (py_div_by_positive 1 (S n)) by lia. cbn [bind].
    split; (split; [lia|]); eexists; (split; [reflexivity|]);
      apply project_sum.
Qed.

Lemma vsum_repeat (c : Q) (n : nat) :
  vsum (repeat c n) == inject_Z (Z.of_nat n) * c.
Proof.
  induction n as [|n IH].
  - simpl. ring.
  - cbn [repeat vsum fold_right]. fold (vsum (repeat c n)). rewrite IH.
    rewrite Nat2Z.inj_succ. unfold Z.succ. rewrite inject_Z_plus.
    change (inject_Z 1) with 1. ring.
Qed.

Lemma clamp_inside (lo hi x : Q) : lo <= x -> x <= hi -> clamp lo hi x == x.
Proof.
  intros H1 H2. unfold clamp. rewrite Q.max_l by exact H1.
  now apply Q.min_l.
Qed.

(** X25. A method name other than the three known ones leaves the weights at
    their start: when [1 / N] lies within the bounds the optimiser returns
    [N] weights equal to [1 / N]. *)
Theorem unknown_method_gives_equal_weights (sqrtQ : Q -> Q)
    (lbfgs adam : nat -> (list Q -> list Q) -> (list Q -> Q) ->
                  list Q -> list Q)
    (N : nat) (X : list (list Q)) (method : string) (bounds : Q * Q) :
  method <> "minimum_variance"%string ->
  method <> "maximum_sharpe"%string ->
  method <> "risk_parity"%string ->
  (1 <= N)%nat ->
  fst bounds <= 1 / inject_Z (Z.of_nat N) ->
  1 / inject_Z (Z.of_nat N) <= snd bounds ->
  exists w,
    _optimize_weights sqrtQ lbfgs adam N X method bounds = Ok w
    /\ List.length w = N
    /\ Forall (fun x => x == 1 / inject_Z (Z.of_nat N)) w.
Proof.
  intros H1 H2 H3 HN Hlo Hhi. rewrite _optimize_weights_returns by exact HN.
  eexists. split; [reflexivity|].
  unfold weights_before_projection.
  apply String.eqb_neq in H1, H2, H3. rewrite H1, H2, H3.
  set (c := 1 / inject_Z (Z.of_nat N)) in *.
  unfold project, clamp_, vdiv. cbv zeta. rewrite !map_repeat.
  set (c' := clamp (fst bounds) (snd bounds) c).
  assert (Hc' : c' == c) by now apply clamp_inside.
  assert (HNpos : 0 < inject_Z (Z.of_nat N)).
  { unfold Qlt. simpl. lia. }
  assert (Hsum : vsum (repeat c' N) == 1).
  { rewrite vsum_repeat, Hc'. unfold c. field.
    intros E. rewrite E in HNpos. discriminate HNpos. }
  split; [apply repeat_length|].
  apply Forall_forall. intros x Hx. apply repeat_spec in Hx. subst x.
  rewrite Hsum, Hc'. field.
Qed.

Lemma unknown_method_gives_equal_weights_witness :
  exists w,
    _optimize_weights rounded_sqrt stationary stationary 4
                      [[0.01; 0.02; 0; 0.03]] "equal_weight" (0.1, 0.4)
    = Ok w
    /\ List.length w = 4%nat
    /\ Forall (fun x => x == 1 / inject_Z (Z.of_nat 4)) w.
Proof.
  apply (unknown_method_gives_equal_weights rounded_sqrt stationary
           stationary 4 [[0.01; 0.02; 0; 0.03]] "equal_weight" (0.1, 0.4)).
  - discriminate.
  - discriminate.
  - discriminate.
  - lia.
  - vm_compute. discriminate.
  - vm_compute. discriminate.
Defined.

(** ** Framework methods *)

(** X26. The framework keeps its multi-period optimiser as long as the horizon
    asked for is the one it was built with: a second call with that horizon
    ignores the cost rate and the risk aversion it is given and uses those
    of the call that built the optimiser.  On a new framework the second
    result is the one of the dynamic program with the first call's rate and
    risk aversion. *)
Theorem kept_optimizer_ignores_new_parameters (sqrtQ : Q -> Q)
    (lbfgs : nat -> (list Q -> list Q) -> (list Q -> Q) -> list Q -> list Q)
    (std_dim0 : list (list Q) -> list Q)
    (corrcoef_T : list (list Q) -> list (list Q))
    (N : nat) (returns : list (list Q)) (fw : Framework) (n_periods : nat)
    (w1 : option (list Q)) (rate1 risk1 : Q) (garch1 : bool)
    (w2 : list Q) (rate2 risk2 rate3 risk3 : Q) (garch2 : bool) :
  let fw1 :=
    fst (optimize_multi_period sqrtQ lbfgs std_dim0 corrcoef_T N returns fw
           n_periods w1 rate1 risk1 garch1) in
  snd (optimize_multi_period sqrtQ lbfgs std_dim0 corrcoef_T N returns fw1
         n_periods (Some w2) rate2 risk2 garch2)
  = snd (optimize_multi_period sqrtQ lbfgs std_dim0 corrcoef_T N returns fw1
           n_periods (Some w2) rate3 risk3 garch2)
  /\ snd (optimize_multi_period sqrtQ lbfgs std_dim0 corrcoef_T N returns
            (fst (optimize_multi_period sqrtQ lbfgs std_dim0 corrcoef_T N
                    returns new_framework n_periods w1 rate1 risk1 garch1))
            n_periods (Some w2) rate2 risk2 false)
     = optimize_dynamic_program lbfgs N returns n_periods rate1 risk1 w2
                                (0, 1).
Proof.
  cbv zeta. unfold optimize_multi_period. cbn [fst snd new_framework
    multi_period_optimizer backtester_initial_capital].
  split.
  - destruct (multi_period_optimizer fw) as [kept|].
    + destruct (mpo_n_periods kept =? n_periods)%nat eqn:E; cbn [negb].
      * rewrite E. reflexivity.
      * cbn [mpo_n_periods]. rewrite Nat.eqb_refl. reflexivity.
    + cbn [mpo_n_periods]. rewrite Nat.eqb_refl. reflexivity.
  - cbn [mpo_n_periods mpo_transaction_cost_rate mpo_risk_aversion].
    rewrite Nat.eqb_refl. reflexivity.
Qed.

(** X27. A framework backtest always starts the simulation at period 60: on at
    most 60 rows of data it reports nothing (IndexError without data,
    ZeroDivisionError otherwise), while the backtester's capital has been
    overwritten with the one passed. *)
Theorem framework_backtest_needs_more_than_sixty_rows (sqrtQ : Q -> Q)
    (lbfgs adam : nat -> (list Q -> list Q) -> (list Q -> Q) ->
                  list Q -> list Q)
    (N : nat) (returns : list (list Q)) (fw : Framework) (strategy : string)
    (lookback_window : nat) (rebalance_freq : RebalanceFrequency)
    (transaction_cost_rate initial_capital : Q) :
  (List.length returns <= 60)%nat ->
  snd (framework_run_backtest sqrtQ lbfgs adam N returns fw strategy
         lookback_window rebalance_freq transaction_cost_rate
         initial_capital)
  = Raise (match returns with
           | [] => IndexError
           | _ :: _ => ZeroDivisionError
           end)
  /\ backtester_initial_capital
       (fst (framework_run_backtest sqrtQ lbfgs adam N returns fw strategy
               lookback_window rebalance_freq transaction_cost_rate
               initial_capital))
     = initial_capital
  /\ multi_period_optimizer
       (fst (framework_run_backtest sqrtQ lbfgs adam N returns fw strategy
               lookback_window rebalance_freq transaction_cost_rate
               initial_capital))
     = multi_period_optimizer fw.
Proof.
  intros HT. unfold framework_run_backtest. cbn [fst snd
    backtester_initial_capital multi_period_optimizer].
  split; [|split; reflexivity].
  destruct returns as [|r rest] eqn:E.
  - now apply empty_loop_raises.
  - rewrite <- E in *.
    rewrite (empty_loop_raises _ _ _ _ _ _ _ _ _ _ _ _ _ _ HT).
    now rewrite E.
Qed.

Lemma framework_backtest_needs_more_than_sixty_rows_witness :
  snd (framework_run_backtest rounded_sqrt stationary stationary 2
         [[0.01; 0.02]; [0.03; -0.01]] new_framework "minimum_variance" 126
         MONTHLY 0.001 500)
  = Raise ZeroDivisionError
  /\ backtester_initial_capital
       (fst (framework_run_backtest rounded_sqrt stationary stationary 2
               [[0.01; 0.02]; [0.03; -0.01]] new_framework
               "minimum_variance" 126 MONTHLY 0.001 500))
     = 500
  /\ multi_period_optimizer
       (fst (framework_run_backtest rounded_sqrt stationary stationary 2
               [[0.01; 0.02]; [0.03; -0.01]] new_framework
               "minimum_variance" 126 MONTHLY 0.001 500))
     = multi_period_optimizer new_framework.
Proof.
  apply (framework_backtest_needs_more_than_sixty_rows rounded_sqrt
           stationary stationary 2 [[0.01; 0.02]; [0.03; -0.01]]
           new_framework "minimum_variance" 126 MONTHLY 0.001 500).
  simpl. lia.
Defined.

(** ** Moments of a return distribution *)

(** X28. The Sharpe ratio of [PortfolioMoments] never raises: the division is
    guarded by [vol > 1e-10].  A variance that is not positive is replaced
    by 0 before the square root, and the ratio is then 0 for a square root
    that maps 0 to at most 1e-10. *)
Theorem moments_sharpe_ratio_is_guarded (sqrtQ : Q -> Q)
    (pm : PortfolioMoments) (risk_free_rate : Q) :
  exists x,
    moments_sharpe_ratio sqrtQ pm risk_free_rate = Ok x
    /\ (pm_variance pm <= 0 -> volatility sqrtQ pm = sqrtQ 0)
    /\ (pm_variance pm <= 0 -> sqrtQ 0 <= 1e-10 -> x = 0)
    /\ (1e-10 < volatility sqrtQ pm ->
        x = (pm_mean pm - risk_free_rate) / volatility sqrtQ pm).
Proof.
  assert (Hvol : pm_variance pm <= 0 -> volatility sqrtQ pm = sqrtQ 0).
  { intros Hv. unfold volatility. f_equal.
    unfold Qmax, GenericMinMax.gmax.
    destruct (0 ?= pm_variance pm) eqn:E; try reflexivity.
    apply Qlt_alt in E. exfalso. exact (Qlt_not_le _ _ E Hv). }
  unfold moments_sharpe_ratio. cbv zeta.
  destruct (Qgtb (volatility sqrtQ pm) 1e-10) eqn:E.
  - apply Qgtb_true_iff in E. unfold py_div.
    destruct (Qeq_bool (volatility sqrtQ pm) 0) eqn:E0.
    + apply Qeq_bool_eq in E0. rewrite E0 in E. discriminate E.
    + eexists. split; [reflexivity|]. split; [exact Hvol|]. split.
      * intros Hv Hs. rewrite (Hvol Hv) in E.
        exfalso. exact (Qlt_not_le _ _ E Hs).
      * reflexivity.
  - apply Qgtb_false_iff in E. exists 0. split; [reflexivity|].
    split; [exact Hvol|]. split; [reflexivity|].
    intros H. exfalso. exact (Qlt_not_le _ _ H E).
Qed.
